(** * Bollar Money: the CDP endpoints of the technical design, in Rocq

    The repository describes a Bitcoin-collateralised stablecoin canister.
    Its executable statements are the Rust endpoints of
    [technical-design.md] ([mint_bollar], [close_cdp], [liquidate_cdp]), the
    data structures of the same file, the ratio function of
    [docs/ARCHITECTURE.md], the unit tests of [docs/TEST_STRATEGY.md] and the
    Candid interface [bollar_money_backend.did].  This file embeds them and
    checks the statements of the specification against them.  The helpers
    that the endpoints call and the repository does not define are given the
    bodies of the specification, and, where a statement would otherwise rest
    on that choice, are left arbitrary ([AnyHelpers]). *)

From Stdlib Require Import ZArith List Bool Lia DecimalString SpecFloat.
From stdpp Require Import base strings gmap sorting.

Local Open Scope Z_scope.

(** ** Machine integers

    Amounts are [u64] in the source; they are carried as [Z] and the
    arithmetic of the endpoints is written with the wrap-around of a release
    build. *)

Definition U64_MODULUS : Z := 2 ^ 64.

Definition is_u64 (x : Z) : Prop := 0 <= x < U64_MODULUS.

Definition wrapping_add (a b : Z) : Z := (a + b) mod U64_MODULUS.

Definition wrapping_sub (a b : Z) : Z := (a - b) mod U64_MODULUS.

(** ** Data design (technical-design.md, "Database Schema") *)

Definition Principal := string.

Inductive CDPStatus : Type := Active | Liquidated | Closed.

Definition CDPStatus_eqb (a b : CDPStatus) : bool :=
  match a, b with
  | Active, Active | Liquidated, Liquidated | Closed, Closed => true
  | _, _ => false
  end.

Record CDP : Type := mkCDP {
  id : Z;
  owner : Principal;
  btc_tx_hash : string;
  collateral_amount : Z;
  minted_bollar : Z;
  collateral_ratio : Z;
  liquidation_price : Z;
  created_at : Z;
  last_updated : Z;
  status : CDPStatus;
  version : Z
}.

Record SystemConfig : Type := mkSystemConfig {
  max_collateral_ratio : Z;
  liquidation_threshold : Z;
  liquidation_penalty : Z;
  min_collateral_amount : Z;
  max_collateral_amount : Z;
  oracle_timeout : Z;
  emergency_pause : bool;
  admin_principals : list Principal
}.

Record PriceData : Type := mkPriceData {
  btc_price : Z;
  timestamp : Z;
  source : string;
  confidence : Z;
  signature : list Z
}.

(** [cdp_id] and [timestamp] of the source are [event_cdp_id] and
    [event_timestamp] here: a record field is a global name in Rocq. *)
Record AuditEvent : Type := mkAuditEvent {
  event_type : string;
  event_cdp_id : Z;
  user : Principal;
  amount : Z;
  event_timestamp : Z;
  tx_hash : option string;
  details : string
}.

(** The text an error carries.  [format!("Requested {} exceeds max {} cents")]
    keeps its two numbers instead of their decimal rendering. *)
Inductive ErrorText : Type :=
| Text (s : string)
| RequestedExceedsMax (requested max : Z).

(** The enum has no declaration in the repository.  These are the variants
    that the code of technical-design.md returns, and those that the error
    requirements (features/07, features/03) name for the same operations:
    [CDPNotLiquidatable], [OraclePriceError]. *)
Inductive ProtocolError : Type :=
| InvalidAmount (msg : ErrorText)
| InvalidAddress (msg : ErrorText)
| InsufficientCollateral (msg : ErrorText)
| CDPNotFound
| CDPAlreadyLiquidated
| CDPNotLiquidatable
| InvalidOperation (msg : ErrorText)
| OraclePriceError
| RunesOperationFailed
| UnauthorizedAccess.

Inductive Result (A : Type) : Type :=
| Ok (a : A)
| Err (e : ProtocolError).

Arguments Ok {A} a.
Arguments Err {A} e.

Definition is_ok {A : Type} (r : Result A) : bool :=
  match r with Ok _ => true | Err _ => false end.

(** ** RatioCalculator

    The integer calculator of section 4.2 of the specification.  None of
    these functions has a body in the repository: the endpoints of
    technical-design.md call helpers of this kind and [docs/TEST_STRATEGY.md]
    tests them.  The one ratio function that the repository writes out, the
    floating-point [calculate_collateral_ratio] of docs/ARCHITECTURE.md, is
    not this calculator; it is embedded from its source further down.
    [PRICE_SCALE] is the fixed-point convention that turns
    (satoshis x price) into a value; the specification leaves it to the
    module, so it stays a parameter. *)

Module RatioCalculator.

Section WithScale.

Variable PRICE_SCALE : Z.

(** Modelled from the spec: [collateral_value(collateral_amount, price)],
    "integer arithmetic only", with an unbounded intermediate product.  The
    scenario of section 8 computes "100,000,000*65,000/1": a scale of 1. *)
Definition collateral_value (collateral : Z) (price : Z) : Z :=
  collateral * price / PRICE_SCALE.

(** Modelled from the spec: the ratio of a value to a debt in basis points,
    "returns 10000 when minted_amount == 0, otherwise
    collateral_value * 10000 / minted_amount, truncating".  It is the figure
    that [test_calculate_collateral_ratio] of TEST_STRATEGY.md expects
    (13000) and not what the body written in ARCHITECTURE.md returns. *)
Definition ratio_bps (value minted : Z) : Z :=
  if minted =? 0 then 10000 else value * 10000 / minted.

(** Modelled from the spec: [collateral_ratio_bps(collateral_amount,
    minted_amount, price)]. *)
Definition collateral_ratio_bps (collateral minted price : Z) : Z :=
  ratio_bps (collateral_value collateral price) minted.

(** Modelled from the spec: [max_mintable(collateral_amount, already_minted,
    price, max_ratio_bps)] =
    [max(0, collateral_value * max_ratio_bps / 10000 - already_minted)]. *)
Definition max_mintable (collateral already_minted price max_ratio_bps : Z) : Z :=
  Z.max 0 (collateral_value collateral price * max_ratio_bps / 10000 - already_minted).

(** Modelled from the spec: [should_liquidate(collateral_value, minted_amount,
    liquidation_threshold)], tested in TEST_STRATEGY.md;
    "minted_amount > 0 AND collateral_ratio_bps(...) < threshold_bps". *)
Definition should_liquidate (value minted threshold_bps : Z) : bool :=
  (0 <? minted) && (ratio_bps value minted <? threshold_bps).

(** Modelled from the spec: [is_liquidatable(collateral_amount, minted_amount,
    price, threshold_bps)].  The formula of the specification has no status
    among its arguments. *)
Definition is_liquidatable (collateral minted price threshold_bps : Z) : bool :=
  should_liquidate (collateral_value collateral price) minted threshold_bps.

(** Modelled from the spec: [liquidation_split(collateral_amount, penalty_bps)]
    = (owner_share, liquidator_reward) with
    [reward = collateral_amount * penalty_bps / 10000]. *)
Definition liquidation_split (collateral penalty_bps : Z) : Z * Z :=
  let reward := collateral * penalty_bps / 10000 in
  (collateral - reward, reward).

End WithScale.

End RatioCalculator.

(** ** The ratio function that the repository writes out

    [docs/ARCHITECTURE.md] ("Code Style") holds the one body of a ratio
    function in the repository:

      fn calculate_collateral_ratio(collateral: u64, debt: u64) -> f64 {
          // Always include bounds checking
          if debt == 0 { return f64::MAX; }
          collateral as f64 / debt as f64
      }

    [f64] is binary64 as the Standard Library specifies it in [SpecFloat]:
    53 bits of precision, rounding to nearest with ties to even, for the
    conversion of an integer as for the division. *)

Module F64.

Definition prec : Z := 53.

Definition emax : Z := 1024.

(** [n as f64] for an unsigned integer. *)
Definition of_u64 (n : Z) : spec_float := binary_normalize prec emax n 0 false.

(** [f64::MAX] *)
Definition MAX : spec_float := SFmax_float prec emax.

(** [x / y] *)
Definition div : spec_float -> spec_float -> spec_float := SFdiv prec emax.

(** [x <= y] *)
Definition leb : spec_float -> spec_float -> bool := SFleb.

End F64.

(** [calculate_collateral_ratio] of docs/ARCHITECTURE.md. *)
Definition calculate_collateral_ratio (collateral debt : Z) : spec_float :=
  if debt =? 0 then F64.MAX else F64.div (F64.of_u64 collateral) (F64.of_u64 debt).

(** *** Rounding, as the proofs on [calculate_collateral_ratio] see it

    A number is a fraction [Y/U] of integers; a float of binary64 with a
    full mantissa [t] of 53 digits at exponent [e] stands for [t * 2^e]. *)

(** Where [Y/U] lies in the unit interval that starts at [m]. *)
Definition inbetween (Y U m : Z) (l : location) : Prop :=
  match l with
  | loc_Exact => Y = m * U
  | loc_Inexact Lt => m * U < Y /\ 2 * Y < (2 * m + 1) * U
  | loc_Inexact Eq => 2 * Y = (2 * m + 1) * U
  | loc_Inexact Gt => (2 * m + 1) * U < 2 * Y /\ Y < (m + 1) * U
  end.

(** The float next above [t * 2^e], for a full mantissa [t]. *)
Definition next_up (s : bool) (t e : Z) : spec_float :=
  if t + 1 =? 2 ^ 53 then S754_finite s (Z.to_pos (2 ^ 52)) (e + 1)
  else S754_finite s (Z.to_pos (t + 1)) e.

(** [f] is the float nearest [(Y/U) * 2^e], a number with a quotient [Y/U]
    of 53 digits. *)
Definition nearest (Y U e : Z) (f : spec_float) : Prop :=
  exists t,
    2 ^ 52 <= t < 2 ^ 53 /\
    t * U <= Y < (t + 1) * U /\
    ((f = S754_finite false (Z.to_pos t) e /\ 2 * Y <= (2 * t + 1) * U) \/
     (f = next_up false t e /\ (2 * t + 1) * U <= 2 * Y)).

(** [f] is the float nearest the fraction [A/B]. *)
Definition rounds_to (A B : Z) (f : spec_float) : Prop :=
  exists Y U e,
    0 < U /\ -1074 <= e <= 970 /\
    Y * 2 ^ (e + 1074) * B = A * 2 ^ 1074 * U /\
    nearest Y U e f.

(** The value of a float with a full mantissa, times [2^52]. *)
Definition scaled_value (m : positive) (e : Z) : Z := Zpos m * 2 ^ (e + 52).

(** ** Canister state and collaborators *)

(** A call made to a collaborator outside the canister: the Runes token
    ([RUNES_PROTOCOL]) or the Bitcoin integration. *)
Inductive ExternalCall : Type :=
| RunesMint (to : Principal) (cents : Z)
| RunesBurn (from : Principal) (cents : Z)
| BtcRelease (deposit : string) (to : Principal)
| BtcTransfer (deposit : string) (to : Principal) (satoshis : Z).

(** The globals the endpoints read and write.  [CDP_REGISTRY] and
    [SYSTEM_CONFIG] are named in the source.  [price_cache] is the last
    [PriceData] that the oracle module stored.  [audit_trail] is what
    [record_audit_event] appends to.  [outbox] lists the calls made to the
    collaborators, oldest first.  The repository declares no system-wide
    total: [get_total_collateral()] and [get_total_minted()] are called in
    [get_system_info] and have neither a body nor a field behind them, so
    the state has none. *)
Record World : Type := mkWorld {
  CDP_REGISTRY : gmap Z CDP;
  SYSTEM_CONFIG : SystemConfig;
  price_cache : PriceData;
  audit_trail : list AuditEvent;
  outbox : list ExternalCall
}.

(** What one call finds around it: who calls, [ic_cdk::api::time()], and how
    the collaborators answer.  Their code is outside the repository, so every
    answer is possible. *)
Record Env : Type := mkEnv {
  caller : Principal;
  time : Z;
  runes_mint_bollar : Principal -> Z -> Result string;
  runes_burn_bollar : Principal -> Z -> Result string;
  runes_balance_of : Principal -> Result Z;
  release_btc_collateral : string -> Principal -> Result string;
  transfer_btc_to_liquidator : string -> Principal -> Z -> Result string
}.

Definition set_registry (r : gmap Z CDP) (w : World) : World :=
  mkWorld r (SYSTEM_CONFIG w) (price_cache w) (audit_trail w) (outbox w).

Definition set_audit_trail (a : list AuditEvent) (w : World) : World :=
  mkWorld (CDP_REGISTRY w) (SYSTEM_CONFIG w) (price_cache w) a (outbox w).

Definition set_outbox (o : list ExternalCall) (w : World) : World :=
  mkWorld (CDP_REGISTRY w) (SYSTEM_CONFIG w) (price_cache w) (audit_trail w) o.

Definition set_price_cache (p : PriceData) (w : World) : World :=
  mkWorld (CDP_REGISTRY w) (SYSTEM_CONFIG w) p (audit_trail w) (outbox w).

Definition set_minted_bollar (m : Z) (c : CDP) : CDP :=
  mkCDP (id c) (owner c) (btc_tx_hash c) (collateral_amount c) m
        (collateral_ratio c) (liquidation_price c) (created_at c)
        (last_updated c) (status c) (version c).

Definition set_last_updated (t : Z) (c : CDP) : CDP :=
  mkCDP (id c) (owner c) (btc_tx_hash c) (collateral_amount c) (minted_bollar c)
        (collateral_ratio c) (liquidation_price c) (created_at c)
        t (status c) (version c).

Definition set_status (s : CDPStatus) (c : CDP) : CDP :=
  mkCDP (id c) (owner c) (btc_tx_hash c) (collateral_amount c) (minted_bollar c)
        (collateral_ratio c) (liquidation_price c) (created_at c)
        (last_updated c) s (version c).

(** ** The monad of an endpoint: global state and [Result]

    An [Err] ends the endpoint; what was written or sent before it stays. *)

Definition M (A : Type) : Type := World -> Result A * World.

Definition ret {A : Type} (a : A) : M A := fun w => (Ok a, w).

Definition fail {A : Type} (e : ProtocolError) : M A := fun w => (Err e, w).

Definition bind {A B : Type} (m : M A) (k : A -> M B) : M B :=
  fun w =>
    match m w with
    | (Ok a, w') => k a w'
    | (Err e, w') => (Err e, w')
    end.

Notation "'let!' x ':=' m 'in' k" := (bind m (fun x => k))
  (at level 10, x name, m at level 100, k at level 200).

Definition gets {A : Type} (f : World -> A) : M A := fun w => (Ok (f w), w).

(** [CDP_REGISTRY.get(cdp_id).ok_or(ProtocolError::CDPNotFound)?] *)
Definition registry_get (cdp_id : Z) : M CDP :=
  fun w =>
    match CDP_REGISTRY w !! cdp_id with
    | Some cdp => (Ok cdp, w)
    | None => (Err CDPNotFound, w)
    end.

(** [CDP_REGISTRY.insert(cdp_id, cdp)] *)
Definition registry_insert (cdp_id : Z) (cdp : CDP) : M unit :=
  fun w => (Ok tt, set_registry (<[cdp_id := cdp]> (CDP_REGISTRY w)) w).

(** A collaborator called with [?]: its answer decides; a call that went
    through is recorded. *)
Definition external {A : Type} (answer : Result A) (c : ExternalCall) : M A :=
  fun w =>
    match answer with
    | Ok a => (Ok a, set_outbox (outbox w ++ [c]) w)
    | Err e => (Err e, w)
    end.

(** [record_audit_event(event)] *)
Definition record_audit_event (ev : AuditEvent) : M unit :=
  fun w => (Ok tt, set_audit_trail (audit_trail w ++ [ev]) w).

(** [AuditEvent::liquidation(cdp_id, caller, reward)]: the constructor has no
    body in the repository; the event carries the three arguments under the
    type "LIQUIDATED" that the comment of [event_type] lists. *)
Definition AuditEvent_liquidation (cdp_id : Z) (who : Principal) (reward now : Z)
  : AuditEvent :=
  mkAuditEvent "LIQUIDATED" cdp_id who reward now None "".

(** A collaborator asked with [?] for a figure: nothing is sent. *)
Definition external_read {A : Type} (answer : Result A) : M A :=
  fun w => (answer, w).

(** Modelled from the spec: [get_current_price()] has no body in the
    repository.  The PriceFeed "falls back to the last accepted sample", and
    ARCHITECTURE.md has a failed fetch "use last valid price": this is the
    read of the stored sample.  What the PriceFeed does once the sample is
    past its extended window ([PriceUnavailable]) is not part of this
    definition, since the callers in the source ([mint_bollar], [create_cdp],
    [get_system_info]) bind the result as a bare number and have no error to
    receive.  Nothing that is stated below about a stale price rests on it:
    for that the endpoints are embedded once more in [AnyHelpers], with this
    function as a parameter. *)
Definition get_current_price : M Z := gets (fun w => btc_price (price_cache w)).

(** Modelled from the spec: how old the cached sample may grow before no valid
    sample exists, the "extended TTL (15 minutes)" of the oracle requirements,
    in the seconds of [timestamp]. *)
Definition EXTENDED_TTL : Z := 900.

(** [ic_cdk::api::time()], the [time] of a call, counts nanoseconds;
    [PriceData.timestamp] is a Unix timestamp, in seconds. *)
Definition NANOS_PER_SECOND : Z := 1000000000.

(** Modelled from the spec: a valid sample exists at the time [now] of a call
    (in nanoseconds) when the cached one is within the extended window. *)
Definition price_sample_valid (now : Z) (p : PriceData) : bool :=
  now / NANOS_PER_SECOND - timestamp p <=? EXTENDED_TTL.

(** [tx_hash] of the source's [MintResult] is [mint_tx_hash] here. *)
Record MintResult : Type := mkMintResult {
  mint_tx_hash : string;
  new_ratio : Z
}.

Record CloseResult : Type := mkCloseResult {
  btc_release_tx : string;
  bollar_burn_tx : string;
  released_amount : Z
}.

Record LiquidationResult : Type := mkLiquidationResult {
  bollar_burned : Z;
  btc_transferred : Z;
  liquidation_reward : Z
}.

Section Endpoints.

Variable PRICE_SCALE : Z.

(** Modelled from the spec: [calculate_max_mintable(cdp.collateral_amount,
    current_price)] has no body in the repository.  The endpoint hands it the
    collateral and the price and nothing of the debt, so it is the
    specification's [max_mintable] with no debt to subtract, at
    [SYSTEM_CONFIG.max_collateral_ratio]. *)
Definition calculate_max_mintable (collateral price : Z) : M Z :=
  gets (fun w =>
    RatioCalculator.max_mintable PRICE_SCALE collateral 0 price
                 (max_collateral_ratio (SYSTEM_CONFIG w))).

(** Modelled from the spec: [calculate_collateral_ratio(&cdp)], the ratio
    reported after a mint, at the current price.  The helper takes the
    record; it is not the two-argument function of ARCHITECTURE.md, and the
    minting test of TEST_STRATEGY.md expects it in basis points (13000). *)
Definition calculate_collateral_ratio_of (cdp : CDP) : M Z :=
  gets (fun w =>
    RatioCalculator.collateral_ratio_bps PRICE_SCALE (collateral_amount cdp) (minted_bollar cdp)
                         (btc_price (price_cache w))).

(** Modelled from the spec: [is_liquidatable(&cdp)] has no body in the
    repository; the specification's test on collateral, debt, the current
    price and [SYSTEM_CONFIG.liquidation_threshold].  The source hands the
    helper the whole record, the specification's formula reads no status:
    the statements below that name this helper hold for the positions it
    accepts and say nothing on whether it accepts a position that is not
    Active.  What follows from [liquidate_cdp] alone, for every body of the
    helper, is stated in [AnyHelpers]. *)
Definition is_liquidatable (cdp : CDP) : M bool :=
  gets (fun w =>
    RatioCalculator.is_liquidatable PRICE_SCALE (collateral_amount cdp) (minted_bollar cdp)
                     (btc_price (price_cache w))
                     (liquidation_threshold (SYSTEM_CONFIG w))).

(** Modelled from the spec: [calculate_liquidation_reward(&cdp)] has no body
    in the repository; the reward of [liquidation_split] at
    [SYSTEM_CONFIG.liquidation_penalty]. *)
Definition calculate_liquidation_reward (cdp : CDP) : M Z :=
  gets (fun w =>
    snd (RatioCalculator.liquidation_split (collateral_amount cdp)
                           (liquidation_penalty (SYSTEM_CONFIG w)))).

(** [POST /cdp/{cdp_id}/mint] *)
Definition mint_bollar (E : Env) (cdp_id amount_cents : Z) : M MintResult :=
  let! cdp := registry_get cdp_id in
  if negb (String.eqb (owner cdp) (caller E)) then fail UnauthorizedAccess else
  let! current_price := get_current_price in
  let! max_mintable := calculate_max_mintable (collateral_amount cdp) current_price in
  if max_mintable <? amount_cents then
    fail (InsufficientCollateral (RequestedExceedsMax amount_cents max_mintable))
  else
  let! mint_tx := external (runes_mint_bollar E (owner cdp) amount_cents)
                           (RunesMint (owner cdp) amount_cents) in
  let cdp := set_minted_bollar (wrapping_add (minted_bollar cdp) amount_cents) cdp in
  let cdp := set_last_updated (time E) cdp in
  let! _ := registry_insert cdp_id cdp in
  let! ratio := calculate_collateral_ratio_of cdp in
  ret (mkMintResult mint_tx ratio).

(** [POST /cdp/{cdp_id}/close] *)
Definition close_cdp (E : Env) (cdp_id bollar_amount : Z) : M CloseResult :=
  let! cdp := registry_get cdp_id in
  if negb (String.eqb (owner cdp) (caller E)) then fail UnauthorizedAccess else
  if negb (CDPStatus_eqb (status cdp) Active) then fail CDPAlreadyLiquidated else
  if bollar_amount <? minted_bollar cdp then
    fail (InsufficientCollateral (Text "Insufficient Bollar to close CDP"))
  else
  let! burn_tx := external (runes_burn_bollar E (owner cdp) (minted_bollar cdp))
                           (RunesBurn (owner cdp) (minted_bollar cdp)) in
  let! release_tx := external (release_btc_collateral E (btc_tx_hash cdp) (owner cdp))
                              (BtcRelease (btc_tx_hash cdp) (owner cdp)) in
  let cdp := set_status Closed cdp in
  let! _ := registry_insert cdp_id cdp in
  ret (mkCloseResult release_tx burn_tx (collateral_amount cdp)).

(** [POST /liquidations/{cdp_id}/execute] *)
Definition liquidate_cdp (E : Env) (cdp_id bollar_amount : Z) : M LiquidationResult :=
  let! cdp := registry_get cdp_id in
  let! eligible := is_liquidatable cdp in
  if negb eligible then
    fail (InvalidOperation (Text "CDP not eligible for liquidation"))
  else
  let! reward := calculate_liquidation_reward cdp in
  let liquidator_amount := wrapping_sub (collateral_amount cdp) reward in
  let! liquidator_balance := external_read (runes_balance_of E (caller E)) in
  if liquidator_balance <? bollar_amount then
    fail (InsufficientCollateral (Text "Insufficient Bollar for liquidation"))
  else
  let! burn_tx := external (runes_burn_bollar E (caller E) (minted_bollar cdp))
                           (RunesBurn (caller E) (minted_bollar cdp)) in
  let! transfer_tx :=
    external (transfer_btc_to_liquidator E (btc_tx_hash cdp) (caller E) liquidator_amount)
             (BtcTransfer (btc_tx_hash cdp) (caller E) liquidator_amount) in
  let cdp := set_status Liquidated cdp in
  let! _ := registry_insert cdp_id cdp in
  let! _ := record_audit_event
              (AuditEvent_liquidation cdp_id (caller E) reward (time E)) in
  ret (mkLiquidationResult (minted_bollar cdp) liquidator_amount reward).

End Endpoints.

(** ** The endpoints, with the helpers that have no body as parameters

    [mint_bollar] and [liquidate_cdp] call five functions that the
    repository does not define.  Above they have the bodies of the
    specification; here they are arbitrary, so that what is proved holds for
    the code of the two endpoints alone.  Each helper may read the canister
    state and what the call finds around it.  [get_current_price] and
    [is_liquidatable], which stand on the price, may also trap ([None]): the
    call then ends with no reply.  [close_cdp] calls none of them. *)

Module AnyHelpers.

(** A call traps, or replies and leaves a state. *)
Definition T (A : Type) : Type := World -> option (Result A * World).

Definition lift {A : Type} (m : M A) : T A := fun w => Some (m w).

(** A helper is asked: it answers, or it traps. *)
Definition ask {A : Type} (f : World -> option A) : T A :=
  fun w =>
    match f w with
    | Some a => Some (Ok a, w)
    | None => None
    end.

Definition bindT {A B : Type} (m : T A) (k : A -> T B) : T B :=
  fun w =>
    match m w with
    | Some (Ok a, w') => k a w'
    | Some (Err e, w') => Some (Err e, w')
    | None => None
    end.

Notation "'let?' x ':=' m 'in' k" := (bindT m (fun x => k))
  (at level 10, x name, m at level 100, k at level 200).

Section Endpoints.

Variable get_current_price : Env -> World -> option Z.

Variable calculate_max_mintable : Env -> World -> Z -> Z -> Z.

Variable calculate_collateral_ratio : Env -> World -> CDP -> Z.

Variable is_liquidatable : Env -> World -> CDP -> option bool.

Variable calculate_liquidation_reward : Env -> World -> CDP -> Z.

(** [POST /cdp/{cdp_id}/mint] *)
Definition mint_bollar (E : Env) (cdp_id amount_cents : Z) : T MintResult :=
  let? cdp := lift (registry_get cdp_id) in
  if negb (String.eqb (owner cdp) (caller E)) then lift (fail UnauthorizedAccess) else
  let? current_price := ask (get_current_price E) in
  let? max_mintable :=
    ask (fun w => Some (calculate_max_mintable E w (collateral_amount cdp) current_price)) in
  if max_mintable <? amount_cents then
    lift (fail (InsufficientCollateral (RequestedExceedsMax amount_cents max_mintable)))
  else
  let? mint_tx := lift (external (runes_mint_bollar E (owner cdp) amount_cents)
                                 (RunesMint (owner cdp) amount_cents)) in
  let cdp := set_minted_bollar (wrapping_add (minted_bollar cdp) amount_cents) cdp in
  let cdp := set_last_updated (time E) cdp in
  let? _ := lift (registry_insert cdp_id cdp) in
  let? ratio := ask (fun w => Some (calculate_collateral_ratio E w cdp)) in
  lift (ret (mkMintResult mint_tx ratio)).

(** [POST /liquidations/{cdp_id}/execute] *)
Definition liquidate_cdp (E : Env) (cdp_id bollar_amount : Z) : T LiquidationResult :=
  let? cdp := lift (registry_get cdp_id) in
  let? eligible := ask (fun w => is_liquidatable E w cdp) in
  if negb eligible then
    lift (fail (InvalidOperation (Text "CDP not eligible for liquidation")))
  else
  let? reward := ask (fun w => Some (calculate_liquidation_reward E w cdp)) in
  let liquidator_amount := wrapping_sub (collateral_amount cdp) reward in
  let? liquidator_balance := lift (external_read (runes_balance_of E (caller E))) in
  if liquidator_balance <? bollar_amount then
    lift (fail (InsufficientCollateral (Text "Insufficient Bollar for liquidation")))
  else
  let? burn_tx := lift (external (runes_burn_bollar E (caller E) (minted_bollar cdp))
                                 (RunesBurn (caller E) (minted_bollar cdp))) in
  let? transfer_tx :=
    lift (external
            (transfer_btc_to_liquidator E (btc_tx_hash cdp) (caller E) liquidator_amount)
            (BtcTransfer (btc_tx_hash cdp) (caller E) liquidator_amount)) in
  let cdp := set_status Liquidated cdp in
  let? _ := lift (registry_insert cdp_id cdp) in
  let? _ := lift (record_audit_event
                    (AuditEvent_liquidation cdp_id (caller E) reward (time E))) in
  lift (ret (mkLiquidationResult (minted_bollar cdp) liquidator_amount reward)).

End Endpoints.

End AnyHelpers.

(** The helpers of the specification, as one choice of the parameters of
    [AnyHelpers]: none of them traps. *)
Definition spec_price (E : Env) (w : World) : option Z :=
  Some (btc_price (price_cache w)).

Definition spec_max_mintable (scale : Z) (E : Env) (w : World) (collateral price : Z) : Z :=
  RatioCalculator.max_mintable scale collateral 0 price
    (max_collateral_ratio (SYSTEM_CONFIG w)).

Definition spec_ratio (scale : Z) (E : Env) (w : World) (cdp : CDP) : Z :=
  RatioCalculator.collateral_ratio_bps scale (collateral_amount cdp) (minted_bollar cdp)
    (btc_price (price_cache w)).

Definition spec_liquidatable (scale : Z) (E : Env) (w : World) (cdp : CDP) : option bool :=
  Some (RatioCalculator.is_liquidatable scale (collateral_amount cdp) (minted_bollar cdp)
          (btc_price (price_cache w)) (liquidation_threshold (SYSTEM_CONFIG w))).

Definition spec_reward (E : Env) (w : World) (cdp : CDP) : Z :=
  snd (RatioCalculator.liquidation_split (collateral_amount cdp)
         (liquidation_penalty (SYSTEM_CONFIG w))).

(** Two other bodies for the two helpers that stand on the price.  The first
    is the test of the specification on Active positions only.  The second
    is a price feed that refuses a sample past its extended window by
    trapping. *)
Definition active_and_liquidatable (scale : Z) (E : Env) (w : World) (cdp : CDP)
  : option bool :=
  Some (CDPStatus_eqb (status cdp) Active
        && RatioCalculator.is_liquidatable scale (collateral_amount cdp)
             (minted_bollar cdp) (btc_price (price_cache w))
             (liquidation_threshold (SYSTEM_CONFIG w))).

Definition fresh_price_or_trap (E : Env) (w : World) : option Z :=
  if price_sample_valid (time E) (price_cache w)
  then Some (btc_price (price_cache w))
  else None.

(** ** What the collaborators were asked to do *)

(** What a principal was sent in bitcoin by [BtcTransfer] calls. *)
Fixpoint btc_transferred_to (who : Principal) (calls : list ExternalCall) : Z :=
  match calls with
  | [] => 0
  | BtcTransfer _ to satoshis :: rest =>
      (if String.eqb to who then satoshis else 0) + btc_transferred_to who rest
  | _ :: rest => btc_transferred_to who rest
  end.

(** ** The Candid interface (bollar_money_backend.did) *)

Module Candid.

Inductive Mode : Type := Query | Update.

Record Method : Type := mkMethod {
  name : string;
  arguments : list string;
  mode : Mode
}.

(** The [service] block, method by method, in the order of the file. *)
Definition service : list Method :=
  [ mkMethod "authenticate" ["address"; "signature"; "message"] Update;
    mkMethod "pre_deposit" ["pool_address"; "btc_amount"] Query;
    mkMethod "execute_deposit" ["pool_address"; "signed_psbt"; "bollar_amount"] Update;
    mkMethod "pre_repay" ["position_id"; "bollar_amount"] Query;
    mkMethod "execute_repay" ["position_id"; "signed_psbt"] Update;
    mkMethod "get_liquidatable_positions" [] Query;
    mkMethod "pre_liquidate" ["position_id"; "bollar_repay_amount"] Query;
    mkMethod "execute_liquidate" ["position_id"; "signed_psbt"] Update;
    mkMethod "get_user_positions" ["user"] Query;
    mkMethod "get_pool_info" ["pool_address"] Query;
    mkMethod "get_btc_price" [] Query;
    mkMethod "get_protocol_metrics" [] Query;
    mkMethod "update_collateral_ratio" ["new_ratio"] Update;
    mkMethod "update_liquidation_threshold" ["new_threshold"] Update ].

(** The endpoints the interface declares with [query]. *)
Definition query_endpoints : list string :=
  List.map name
    (List.filter (fun m => match mode m with Query => true | Update => false end)
                 service).

End Candid.

(** ** Fixtures: one position, one price, collaborators that answer *)

Definition config : SystemConfig :=
  mkSystemConfig 9000 8500 500 100000 100000000000 300 false [].

Definition sample (price observed_at : Z) : PriceData :=
  mkPriceData price observed_at "icp_oracle" 10000 [].

Definition position (who : Principal) (collateral minted : Z) (st : CDPStatus) : CDP :=
  mkCDP 1 who "deposit-1" collateral minted 0 0 0 0 st 1.

(** A world that holds [cdp] under id 1. *)
Definition world_of (cdp : CDP) (p : PriceData) : World :=
  mkWorld {[ 1 := cdp ]} config p [] [].

(** A call by [who] at time [now] with every collaborator answering [Ok] and
    a token balance of [balance]. *)
Definition answering (who : Principal) (now balance : Z) : Env :=
  mkEnv who now
        (fun _ _ => Ok "mint-tx")
        (fun _ _ => Ok "burn-tx")
        (fun _ => Ok balance)
        (fun _ _ => Ok "release-tx")
        (fun _ _ _ => Ok "transfer-tx").

(** The minted debt stored for position 1. *)
Definition stored_debt (w : World) : option Z :=
  minted_bollar <$> CDP_REGISTRY w !! 1.

Definition stored_status (w : World) : option CDPStatus :=
  status <$> CDP_REGISTRY w !! 1.

(** Alice's position: 100,000,000 satoshis, 5,000,000,000,000 minted; at a
    price of 65,000 and a scale of 1 the collateral is worth
    6,500,000,000,000 and 90% of it is 5,850,000,000,000. *)
Definition alice_position : CDP := position "alice" 100000000 5000000000000 Active.

Definition alice_world : World := world_of alice_position (sample 65000 0).

Definition alice_calls : Env := answering "alice" 10 0.

(** The same call made 1,000,000 seconds after the cached sample was
    observed, far beyond the extended window. *)
Definition alice_calls_late : Env := answering "alice" 1000000000000000 0.

(** A position whose debt of 8,000,000,000,000 stands against a collateral
    worth 6,500,000,000,000: a ratio of 8125 bps, under the threshold. *)
Definition underwater_position : CDP :=
  position "alice" 100000000 8000000000000 Active.

Definition underwater_world : World := world_of underwater_position (sample 65000 0).

Definition bob_calls : Env := answering "bob" 10 8000000000000.

Definition carol_calls : Env := answering "carol" 11 8000000000000.

(** The scale at which a price is the value of one bitcoin. *)
Definition SATOSHIS_PER_BTC : Z := 100000000.

(** The position of the minting tests of TEST_STRATEGY.md:
    [create_collateral(100_000_000, 65_000_000)], one bitcoin worth
    65,000,000 at the scale [SATOSHIS_PER_BTC]. *)
Definition test_world : World :=
  world_of (position "alice" 100000000 0 Active) (sample 65000000 0).


(** A position closed earlier, with no debt. *)
Definition closed_position : CDP := position "alice" 100000000 0 Closed.

Definition closed_world : World := world_of closed_position (sample 65000 0).

(** The underwater position after its owner closed it: [close_cdp] keeps the
    debt on the record. *)
Definition closed_underwater_world : World :=
  world_of (set_status Closed underwater_position) (sample 65000 0).

(** ** The rest of the technical design

    Validation, creation, access control, the listing of liquidatable
    positions, compaction and sharding, as technical-design.md writes them. *)

(** [format!("{}", n)] of an amount. *)
Definition show (n : Z) : string := NilZero.string_of_int (Z.to_int n).

(** [CDP::validate_collateral_amount] *)
Definition validate_collateral_amount (amount : Z) : M unit :=
  let! cfg := gets SYSTEM_CONFIG in
  if amount <? min_collateral_amount cfg then
    fail (InvalidAmount
            (Text ("Amount " +:+ show amount +:+ " below minimum "
                   +:+ show (min_collateral_amount cfg) +:+ " satoshis")))
  else
  if max_collateral_amount cfg <? amount then
    fail (InvalidAmount
            (Text ("Amount " +:+ show amount +:+ " above maximum "
                   +:+ show (max_collateral_amount cfg) +:+ " satoshis")))
  else ret tt.

(** The second design document (in docs/TEST_STRATEGY.md) validates a deposit
    against two constants and with errors of its own. *)
Module DepositValidation.

Inductive Error : Type :=
| AmountTooSmall (amount minimum : Z)
| AmountTooLarge (amount maximum : Z).

Section WithLimits.

(** The two constants have no definition in the repository. *)
Variables MIN_COLLATERAL_AMOUNT MAX_COLLATERAL_AMOUNT : Z.

(** [validate_deposit_amount]: [None] is [Ok(())]. *)
Definition validate_deposit_amount (amount : Z) : option Error :=
  if amount <? MIN_COLLATERAL_AMOUNT then
    Some (AmountTooSmall amount MIN_COLLATERAL_AMOUNT)
  else if MAX_COLLATERAL_AMOUNT <? amount then
    Some (AmountTooLarge amount MAX_COLLATERAL_AMOUNT)
  else None.

End WithLimits.

End DepositValidation.

(** [bitcoin::AddressType], the kinds of address the library tells apart. *)
Inductive AddressType : Type := P2pkh | P2sh | P2wpkh | P2wsh | P2tr.

Module CreateCDPParams.

Record t : Type := mk {
  btc_tx_hash : string;
  amount_satoshis : Z;
  btc_address : string
}.

End CreateCDPParams.

Module CDPCreationResult.

Record t : Type := mk {
  cdp_id : Z;
  max_mintable : Z
}.

End CDPCreationResult.

Section Creation.

(** [bitcoin::Address::from_str(address)] followed by [address_type()]: the
    library is outside the repository.  [None] is a text that does not
    parse; [Some None] an address of no standard type. *)
Variable address_from_str : string -> option (option AddressType).

(** [verify_btc_deposit(&btc_tx_hash, amount_satoshis, &btc_address)]: the
    Bitcoin integration, outside the repository. *)
Variable verify_btc_deposit : string -> Z -> string -> Result unit.

(** [CDP_MANAGER.create(caller, btc_tx_hash, amount_satoshis, price)] and the
    one-argument [calculate_max_mintable(amount_satoshis)] of [create_cdp]
    have no body in the repository: they may do anything to the state. *)
Variable CDP_MANAGER_create : Principal -> string -> Z -> Z -> M Z.

Variable calculate_max_mintable_of : Z -> M Z.

(** [CDP::validate_btc_address] *)
Definition validate_btc_address (address : string) : M unit :=
  match address_from_str address with
  | None => fail (InvalidAddress (Text "Invalid Bitcoin address"))
  | Some (Some P2pkh) | Some (Some P2sh) | Some (Some P2wpkh) => ret tt
  | Some _ => fail (InvalidAddress (Text "Unsupported address type"))
  end.

(** [POST /cdp/create] *)
Definition create_cdp (E : Env) (params : CreateCDPParams.t)
  : M CDPCreationResult.t :=
  let btc_tx_hash := CreateCDPParams.btc_tx_hash params in
  let amount_satoshis := CreateCDPParams.amount_satoshis params in
  let btc_address := CreateCDPParams.btc_address params in
  let! _ := validate_collateral_amount amount_satoshis in
  let! _ := validate_btc_address btc_address in
  let! _ := external_read (verify_btc_deposit btc_tx_hash amount_satoshis btc_address) in
  let! price := get_current_price in
  let! cdp_id := CDP_MANAGER_create (caller E) btc_tx_hash amount_satoshis price in
  let! max_mintable := calculate_max_mintable_of amount_satoshis in
  ret (CDPCreationResult.mk cdp_id max_mintable).

End Creation.

(** [Principal::anonymous()], in its textual form. *)
Definition ANONYMOUS : Principal := "2vxsx-fae".

(** [require_authenticated] *)
Definition require_authenticated (E : Env) : M Principal :=
  if String.eqb (caller E) ANONYMOUS then fail UnauthorizedAccess
  else ret (caller E).

(** [require_cdp_owner] *)
Definition require_cdp_owner (E : Env) (cdp_id : Z) : M (Principal * CDP) :=
  let! who := require_authenticated E in
  let! cdp := registry_get cdp_id in
  if negb (String.eqb (owner cdp) who) then fail UnauthorizedAccess
  else ret (who, cdp).

(** [ValidationPipeline::validate_create_cdp] *)
Module ValidationPipeline.

Inductive ValidationError : Type :=
| AmountTooSmall (amount : Z)
| InvalidAddress (address : string)
| InvalidHash (hash : string).

Section WithValidators.

(** [MIN_COLLATERAL_AMOUNT], [self.validate_btc_address] and
    [self.validate_tx_hash] have no definition in the repository. *)
Variable MIN_COLLATERAL_AMOUNT : Z.

Variable validate_btc_address : string -> bool.

Variable validate_tx_hash : string -> bool.

(** [errors.push(e)] when [failed]. *)
Definition push_if (failed : bool) (e : ValidationError)
                   (errors : list ValidationError) : list ValidationError :=
  if failed then errors ++ [e] else errors.

(** [validate_create_cdp]: [inl tt] is [Ok(())], [inr errors] is
    [Err(errors)]. *)
Definition validate_create_cdp (params : CreateCDPParams.t)
  : unit + list ValidationError :=
  let errors := [] in
  let errors :=
    push_if (CreateCDPParams.amount_satoshis params <? MIN_COLLATERAL_AMOUNT)
            (AmountTooSmall (CreateCDPParams.amount_satoshis params)) errors in
  let errors :=
    push_if (negb (validate_btc_address (CreateCDPParams.btc_address params)))
            (InvalidAddress (CreateCDPParams.btc_address params)) errors in
  let errors :=
    push_if (negb (validate_tx_hash (CreateCDPParams.btc_tx_hash params)))
            (InvalidHash (CreateCDPParams.btc_tx_hash params)) errors in
  match errors with
  | [] => inl tt
  | _ => inr errors
  end.

End WithValidators.

End ValidationPipeline.

(** [CompactCDP], the compact storage record. *)
Module CompactCDP.

Record t : Type := mk {
  id : Z;
  owner : list Z;
  amount : Z;
  minted : Z;
  ratio : Z;
  flags : Z
}.

End CompactCDP.

(** [x as u16] *)
Definition as_u16 (x : Z) : Z := x mod 2 ^ 16.

Section Compaction.

(** [compress_principal] and [pack_status_flags] have no body in the
    repository. *)
Variable compress_principal : Principal -> list Z.

Variable pack_status_flags : CDPStatus -> Z.

(** [CompactCDP::from_cdp] *)
Definition from_cdp (cdp : CDP) : CompactCDP.t :=
  CompactCDP.mk (id cdp)
                (compress_principal (owner cdp))
                (collateral_amount cdp)
                (minted_bollar cdp)
                (as_u16 (collateral_ratio cdp))
                (pack_status_flags (status cdp)).

End Compaction.

(** The remainder of the machine: a zero divisor panics. *)
Definition checked_rem (a b : Z) : option Z :=
  if b =? 0 then None else Some (a mod b).

Section Sharding.

(** [LoadBalancer] and [calculate_hash] have no definition in the
    repository. *)
Variable LoadBalancer : Type.

Variable calculate_hash : Principal -> Z.

Record ShardingManager : Type := mkShardingManager {
  shard_count : Z;
  shard_mapping : gmap Principal Z;
  load_balancer : LoadBalancer
}.

(** [ShardingManager::get_shard_for_user]: [None] is the panic. *)
Definition get_shard_for_user (self : ShardingManager) (principal : Principal)
  : option Z :=
  let hash := calculate_hash principal in
  checked_rem hash (shard_count self).

(** [self.calculate_load_distribution()] and [self.generate_new_mapping(..)]
    have no body in the repository. *)
Variable LoadDistribution : Type.

Variable calculate_load_distribution : ShardingManager -> LoadDistribution.

Variable generate_new_mapping : ShardingManager -> LoadDistribution -> gmap Principal Z.

(** [ShardingManager::rebalance_shards] *)
Definition rebalance_shards (self : ShardingManager) : ShardingManager :=
  let load_distribution := calculate_load_distribution self in
  mkShardingManager (shard_count self)
                    (generate_new_mapping self load_distribution)
                    (load_balancer self).

End Sharding.

(** [LiquidationInfo], an entry of the list of liquidatable positions. *)
Module LiquidationInfo.

Record t : Type := mk {
  cdp_id : Z;
  owner : Principal;
  collateral_amount : Z;
  minted_bollar : Z;
  current_ratio : Z;
  liquidation_price : Z;
  potential_reward : Z
}.

End LiquidationInfo.

Record LiquidationList : Type := mkLiquidationList {
  cdps : list LiquidationInfo.t;
  total_count : Z
}.

(** [CDP_REGISTRY.iter()]: a [StableBTreeMap] is walked in the order of its
    keys. *)
Definition key_le (a b : Z * CDP) : Prop := a.1 <= b.1.

#[local] Instance key_le_dec : RelDecision key_le.
Proof. intros a b. unfold key_le. apply _. Defined.

Definition registry_iter (registry : gmap Z CDP) : list (Z * CDP) :=
  merge_sort key_le (map_to_list registry).

Section Listing.

Variable PRICE_SCALE : Z.

(** [PaginationParams] has no definition in the repository; the endpoint
    takes it and does not read it. *)
Variable PaginationParams : Type.

(** [.filter(|(_, cdp)| is_liquidatable(cdp)).map(|(id, cdp)| LiquidationInfo
    { .. })] over the entries, one entry at a time. *)
Fixpoint filter_map_liquidatable (entries : list (Z * CDP))
  : M (list LiquidationInfo.t) :=
  match entries with
  | [] => ret []
  | (cdp_id, cdp) :: rest =>
      let! eligible := is_liquidatable PRICE_SCALE cdp in
      if eligible then
        let! reward := calculate_liquidation_reward cdp in
        let! tail := filter_map_liquidatable rest in
        ret (LiquidationInfo.mk cdp_id (owner cdp) (collateral_amount cdp)
                                (minted_bollar cdp) (collateral_ratio cdp)
                                (liquidation_price cdp) reward :: tail)
      else filter_map_liquidatable rest
  end.

(** [GET /liquidations/available] *)
Definition get_liquidatable_cdps (params : PaginationParams) : M LiquidationList :=
  let! entries := gets (fun w => registry_iter (CDP_REGISTRY w)) in
  let! liquidatable := filter_map_liquidatable entries in
  ret (mkLiquidationList liquidatable (Z.of_nat (length liquidatable))).

End Listing.

(** One call of a position endpoint, and the state it leaves. *)
Inductive Call : Type :=
| CallMint (amount_cents : Z)
| CallClose (bollar_amount : Z)
| CallLiquidate (bollar_amount : Z).

Definition state_after (scale : Z) (E : Env) (cdp_id : Z) (c : Call) (w : World)
  : World :=
  match c with
  | CallMint a => snd (mint_bollar scale E cdp_id a w)
  | CallClose a => snd (close_cdp E cdp_id a w)
  | CallLiquidate a => snd (liquidate_cdp scale E cdp_id a w)
  end.

(** Collaborators that answer, except for the one named. *)
Definition refusal : ProtocolError := InvalidOperation (Text "collaborator failed").

Definition answering_but_mint (who : Principal) (now balance : Z) : Env :=
  mkEnv who now
        (fun _ _ => Err RunesOperationFailed)
        (fun _ _ => Ok "burn-tx")
        (fun _ => Ok balance)
        (fun _ _ => Ok "release-tx")
        (fun _ _ _ => Ok "transfer-tx").

Definition answering_but_release (who : Principal) (now balance : Z) : Env :=
  mkEnv who now
        (fun _ _ => Ok "mint-tx")
        (fun _ _ => Ok "burn-tx")
        (fun _ => Ok balance)
        (fun _ _ => Err refusal)
        (fun _ _ _ => Ok "transfer-tx").

Definition answering_but_transfer (who : Principal) (now balance : Z) : Env :=
  mkEnv who now
        (fun _ _ => Ok "mint-tx")
        (fun _ _ => Ok "burn-tx")
        (fun _ => Ok balance)
        (fun _ _ => Ok "release-tx")
        (fun _ _ _ => Err refusal).

(** Two records of one position: everything that says which position it is
    and what backs it is the same; debt, status and [last_updated] may
    differ. *)
Definition same_position (a b : CDP) : Prop :=
  id b = id a /\ owner b = owner a /\ btc_tx_hash b = btc_tx_hash a /\
  collateral_amount b = collateral_amount a /\
  collateral_ratio b = collateral_ratio a /\
  liquidation_price b = liquidation_price a /\
  created_at b = created_at a /\ version b = version a.

(** A position that the anonymous principal owns, and its call. *)
Definition anonymous_world : World :=
  world_of (position ANONYMOUS 100000000 0 Active) (sample 65000 0).

Definition anonymous_calls : Env := answering ANONYMOUS 10 0.

(** A request to create a position: one bitcoin, and 2000 bitcoin. *)
Definition one_btc_request : CreateCDPParams.t :=
  CreateCDPParams.mk "deposit-1" 100000000 "bc1-address".

Definition oversized_request : CreateCDPParams.t :=
  CreateCDPParams.mk "deposit-1" 200000000000 "bc1-address".

(** Whether a position passes the test of [is_liquidatable] in a state, and
    what [get_liquidatable_cdps] shows of it. *)
Definition eligible_in (scale : Z) (w : World) (cdp : CDP) : bool :=
  RatioCalculator.is_liquidatable scale (collateral_amount cdp) (minted_bollar cdp)
    (btc_price (price_cache w)) (liquidation_threshold (SYSTEM_CONFIG w)).

Definition liquidation_info_of (w : World) (cdp_id : Z) (cdp : CDP)
  : LiquidationInfo.t :=
  LiquidationInfo.mk cdp_id (owner cdp) (collateral_amount cdp) (minted_bollar cdp)
    (collateral_ratio cdp) (liquidation_price cdp)
    (snd (RatioCalculator.liquidation_split (collateral_amount cdp)
            (liquidation_penalty (SYSTEM_CONFIG w)))).

(** * Properties *)

(** ** RatioCalculator against the repository's unit tests *)

(** The figures of [test_calculate_collateral_ratio] of TEST_STRATEGY.md, in
    basis points. *)
Example test_ratio_in_basis_points :
  RatioCalculator.ratio_bps 65000000 50000000 = 13000.
Proof. reflexivity. Qed.

(** [test_should_liquidate_below_threshold] and
    [test_should_not_liquidate_above_threshold] of TEST_STRATEGY.md. *)
Example test_should_liquidate :
  RatioCalculator.should_liquidate 80000000 100000000 8500 = true /\
  RatioCalculator.should_liquidate 100000000 100000000 8500 = false.
Proof. split; reflexivity. Qed.

(** The scenarios of section 8 of the specification, at its scale of 1. *)
Example scenario_max_mintable :
  RatioCalculator.max_mintable 1 100000000 0 65000 9000 = 5850000000000.
Proof. reflexivity. Qed.

Example scenario_liquidation_boundary :
  RatioCalculator.should_liquidate 8499 10000 8500 = true /\
  RatioCalculator.should_liquidate 8500 10000 8500 = false.
Proof. split; reflexivity. Qed.

Example scenario_liquidation_split :
  RatioCalculator.liquidation_split 100000000 500 = (95000000, 5000000).
Proof. reflexivity. Qed.

Lemma liquidation_split_sum (c penalty_bps : Z) :
  fst (RatioCalculator.liquidation_split c penalty_bps)
  + snd (RatioCalculator.liquidation_split c penalty_bps) = c.
Proof. unfold RatioCalculator.liquidation_split. simpl. lia. Qed.

Lemma collateral_value_nonneg scale c p :
  0 < scale -> 0 <= c -> 0 <= p -> 0 <= RatioCalculator.collateral_value scale c p.
Proof.
  intros Hs Hc Hp. unfold RatioCalculator.collateral_value.
  apply Z.div_pos; [apply Z.mul_nonneg_nonneg; assumption | assumption].
Qed.

Lemma collateral_value_mono_price scale c p p' :
  0 < scale -> 0 <= c -> p <= p' ->
  RatioCalculator.collateral_value scale c p <= RatioCalculator.collateral_value scale c p'.
Proof.
  intros Hs Hc Hp. unfold RatioCalculator.collateral_value.
  apply Z.div_le_mono; [assumption |].
  apply Z.mul_le_mono_nonneg_l; assumption.
Qed.

(** ** The ratio function of ARCHITECTURE.md

    First what [SpecFloat] computes, step by step: the digits of a mantissa,
    the shift that cuts it to 53 digits, the rounding, the conversion of an
    integer and the division.  Then the function. *)

Lemma digits2_pos_bounds (p : positive) :
  2 ^ (Zpos (digits2_pos p) - 1) <= Zpos p < 2 ^ Zpos (digits2_pos p).
Proof.
  induction p as [p IH | p IH |]; simpl digits2_pos.
  - rewrite Pos2Z.inj_succ, (Pos2Z.inj_xI p).
    replace (Z.succ (Zpos (digits2_pos p)) - 1) with (Z.succ (Zpos (digits2_pos p) - 1)) by lia.
    rewrite !Z.pow_succ_r by lia. lia.
  - rewrite Pos2Z.inj_succ, (Pos2Z.inj_xO p).
    replace (Z.succ (Zpos (digits2_pos p)) - 1) with (Z.succ (Zpos (digits2_pos p) - 1)) by lia.
    rewrite !Z.pow_succ_r by lia. lia.
  - change (2 ^ (1 - 1)) with 1. change (2 ^ 1) with 2. lia.
Qed.

Lemma digits2_pos_unique (p : positive) (d : Z) :
  2 ^ (d - 1) <= Zpos p < 2 ^ d -> Zpos (digits2_pos p) = d.
Proof.
  intros [Hlo Hhi]. pose proof (digits2_pos_bounds p) as [Hlo' Hhi'].
  set (d' := Zpos (digits2_pos p)) in *.
  assert (0 < d).
  { apply Z.nle_gt. intros Hd.
    assert (2 ^ d <= 2 ^ 0) by (apply Z.pow_le_mono_r; lia).
    change (2 ^ 0) with 1 in *. lia. }
  destruct (Z.lt_trichotomy d' d) as [Hlt | [Heq | Hgt]]; [| exact Heq |].
  - exfalso. assert (2 ^ d' <= 2 ^ (d - 1)) by (apply Z.pow_le_mono_r; lia). lia.
  - exfalso. assert (2 ^ d <= 2 ^ (d' - 1)) by (apply Z.pow_le_mono_r; lia). lia.
Qed.

Lemma shr_1_inbetween (Y U : Z) (mrs : shr_record) :
  0 < U ->
  0 <= shr_m mrs ->
  inbetween Y U (shr_m mrs) (loc_of_shr_record mrs) ->
  inbetween Y (2 * U) (shr_m (shr_1 mrs)) (loc_of_shr_record (shr_1 mrs)) /\
  shr_m (shr_1 mrs) = shr_m mrs / 2.
Proof.
  destruct mrs as [m r s]. simpl shr_m at 1 2. intros HU Hm.
  destruct m as [| p | p]; [| | lia].
  - destruct r, s; simpl; intros H; split; try reflexivity; lia.
  - destruct p as [p | p |]; destruct r, s; simpl; intros H; split;
      try rewrite (Pos2Z.inj_xI p) in *; try rewrite (Pos2Z.inj_xO p) in *;
      try (Z.div_mod_to_equations; lia); try nia.
Qed.

Lemma iter_shr_1_inbetween (p : positive) :
  forall (Y U : Z) (mrs : shr_record),
    0 < U -> 0 <= shr_m mrs ->
    inbetween Y U (shr_m mrs) (loc_of_shr_record mrs) ->
    inbetween Y (2 ^ Zpos p * U) (shr_m (SpecFloat.iter_pos shr_1 p mrs))
      (loc_of_shr_record (SpecFloat.iter_pos shr_1 p mrs)) /\
    shr_m (SpecFloat.iter_pos shr_1 p mrs) = shr_m mrs / 2 ^ Zpos p.
Proof.
  induction p as [p IH | p IH |]; intros Y U mrs HU Hm Hin; simpl SpecFloat.iter_pos.
  - destruct (shr_1_inbetween Y U mrs HU Hm Hin) as [H1 E1].
    assert (Hm1 : 0 <= shr_m (shr_1 mrs)) by (rewrite E1; apply Z.div_pos; lia).
    destruct (IH Y (2 * U) (shr_1 mrs) ltac:(lia) Hm1 H1) as [H2 E2].
    assert (Hpow : 0 < 2 ^ Zpos p) by (apply Z.pow_pos_nonneg; lia).
    assert (Hm2 : 0 <= shr_m (SpecFloat.iter_pos shr_1 p (shr_1 mrs)))
      by (rewrite E2; apply Z.div_pos; lia).
    destruct (IH Y (2 ^ Zpos p * (2 * U)) _ ltac:(nia) Hm2 H2) as [H3 E3].
    rewrite (Pos2Z.inj_xI p).
    replace (2 * Zpos p + 1) with (Zpos p + Zpos p + 1) by lia.
    rewrite !Z.pow_add_r by lia. change (2 ^ 1) with 2.
    split.
    + replace (2 ^ Zpos p * 2 ^ Zpos p * 2 * U)
        with (2 ^ Zpos p * (2 ^ Zpos p * (2 * U))) by ring.
      exact H3.
    + rewrite E3, E2, E1. rewrite !Z.div_div by lia.
      f_equal. ring.
  - destruct (IH Y U mrs HU Hm Hin) as [H2 E2].
    assert (Hpow : 0 < 2 ^ Zpos p) by (apply Z.pow_pos_nonneg; lia).
    assert (Hm2 : 0 <= shr_m (SpecFloat.iter_pos shr_1 p mrs))
      by (rewrite E2; apply Z.div_pos; lia).
    destruct (IH Y (2 ^ Zpos p * U) _ ltac:(nia) Hm2 H2) as [H3 E3].
    rewrite (Pos2Z.inj_xO p).
    replace (2 * Zpos p) with (Zpos p + Zpos p) by lia.
    rewrite !Z.pow_add_r by lia.
    split.
    + replace (2 ^ Zpos p * 2 ^ Zpos p * U)
        with (2 ^ Zpos p * (2 ^ Zpos p * U)) by ring.
      exact H3.
    + rewrite E3, E2. rewrite !Z.div_div by lia. reflexivity.
  - change (2 ^ 1) with 2. apply shr_1_inbetween; assumption.
Qed.

Lemma loc_of_shr_record_of_loc (m : Z) (l : location) :
  loc_of_shr_record (shr_record_of_loc m l) = l /\
  shr_m (shr_record_of_loc m l) = m.
Proof. destruct l as [| []]; split; reflexivity. Qed.

(** [shr]: the mantissa is divided, the exponent raised, and the location
    follows. *)
Lemma shr_inbetween (Y U m e n : Z) (l : location) :
  0 < U -> 0 <= m -> 0 <= n ->
  inbetween Y U m l ->
  let out := shr (shr_record_of_loc m l) e n in
  snd out = e + n /\
  shr_m (fst out) = m / 2 ^ n /\
  inbetween Y (2 ^ n * U) (shr_m (fst out)) (loc_of_shr_record (fst out)).
Proof.
  intros HU Hm Hn Hin out. subst out.
  destruct (loc_of_shr_record_of_loc m l) as [El Em].
  destruct n as [| p | p]; [| | lia].
  - simpl. rewrite El, Em. rewrite Z.div_1_r.
    split; [lia |]. split; [reflexivity |].
    change (2 ^ 0) with 1. replace (1 * U) with U by lia. exact Hin.
  - unfold shr. simpl fst. simpl snd.
    rewrite <- El in Hin. rewrite <- Em in Hin at 1.
    assert (Hm' : 0 <= shr_m (shr_record_of_loc m l)) by (rewrite Em; exact Hm).
    destruct (iter_shr_1_inbetween p Y U _ HU Hm' Hin) as [H E].
    split; [reflexivity |]. split; [rewrite E, Em; reflexivity | exact H].
Qed.

Lemma round_nearest_even_inbetween (Y U t : Z) (l : location) :
  0 < U -> inbetween Y U t l ->
  t * U <= Y < (t + 1) * U /\
  ((round_nearest_even t l = t /\ 2 * Y <= (2 * t + 1) * U) \/
   (round_nearest_even t l = t + 1 /\ (2 * t + 1) * U <= 2 * Y)).
Proof.
  intros HU Hin. destruct l as [| []]; simpl in *.
  - split; [nia |]. left. split; [reflexivity | nia].
  - split; [nia |]. destruct (Z.even t); [left | right]; split; try reflexivity; lia.
  - split; [nia |]. left. split; [reflexivity | nia].
  - split; [nia |]. right. split; [reflexivity | nia].
Qed.

Lemma Zdigits2_bounds (m : Z) :
  0 < m -> 2 ^ (Zdigits2 m - 1) <= m < 2 ^ Zdigits2 m.
Proof.
  destruct m as [| p | p]; try lia. intros _. simpl Zdigits2.
  apply digits2_pos_bounds.
Qed.

Lemma Zdigits2_unique (m d : Z) :
  0 < m -> 2 ^ (d - 1) <= m < 2 ^ d -> Zdigits2 m = d.
Proof.
  destruct m as [| p | p]; try lia. intros _ H. simpl Zdigits2.
  apply digits2_pos_unique. exact H.
Qed.

Lemma fexp_normal (e : Z) : -1074 <= e - 53 -> fexp 53 1024 e = e - 53.
Proof. intros H. unfold fexp, emin. lia. Qed.

(** A number with exactly 53 digits, at an exponent in range, is a float as
    it stands. *)
Lemma shr_fexp_full (r e : Z) :
  2 ^ 52 <= r < 2 ^ 53 -> -1074 <= e ->
  shr_fexp 53 1024 r e loc_Exact = (Build_shr_record r false false, e).
Proof.
  intros Hr He. unfold shr_fexp.
  rewrite (Zdigits2_unique r 53) by (change (53 - 1) with 52; lia).
  rewrite fexp_normal by lia.
  replace (53 + e - 53 - e) with 0 by lia. reflexivity.
Qed.

(** The carry: [2^53] becomes [2^52] one exponent up. *)
Lemma shr_fexp_carry (e : Z) :
  -1074 <= e ->
  shr_fexp 53 1024 (2 ^ 53) e loc_Exact = (Build_shr_record (2 ^ 52) false false, e + 1).
Proof.
  intros He. unfold shr_fexp.
  change (Zdigits2 (2 ^ 53)) with 54.
  rewrite fexp_normal by lia.
  replace (54 + e - 53 - e) with 1 by lia. reflexivity.
Qed.

(** What [binary_round_aux] returns on a mantissa of [53 + n] digits: the
    mantissa cut to 53 digits, or the float next above it, on the side of
    the midpoint where the number lies. *)
Lemma binary_round_aux_spec (s : bool) (mx ex n : Z) (lx : location) (Y U : Z) :
  0 < U -> 0 < mx -> 0 <= n -> Zdigits2 mx = 53 + n ->
  -1074 <= ex + n <= 970 ->
  inbetween Y U mx lx ->
  exists t,
    2 ^ 52 <= t < 2 ^ 53 /\
    t * (2 ^ n * U) <= Y < (t + 1) * (2 ^ n * U) /\
    ((binary_round_aux 53 1024 s mx ex lx = S754_finite s (Z.to_pos t) (ex + n) /\
      2 * Y <= (2 * t + 1) * (2 ^ n * U)) \/
     (binary_round_aux 53 1024 s mx ex lx = next_up s t (ex + n) /\
      (2 * t + 1) * (2 ^ n * U) <= 2 * Y)).
Proof.
  intros HU Hmx Hn Hd He Hin.
  assert (Hpow : 0 < 2 ^ n) by (apply Z.pow_pos_nonneg; lia).
  pose proof (Zdigits2_bounds mx Hmx) as Hb. rewrite Hd in Hb.
  replace (53 + n - 1) with (52 + n) in Hb by lia.
  rewrite !Z.pow_add_r in Hb by lia.
  set (t := mx / 2 ^ n).
  assert (Ht : 2 ^ 52 <= t < 2 ^ 53).
  { subst t. split.
    - apply Z.div_le_lower_bound; lia.
    - apply Z.div_lt_upper_bound; lia. }
  exists t. split; [exact Ht |].
  destruct (shr_inbetween Y U mx ex n lx HU ltac:(lia) Hn Hin) as (Ee & Em & Hin').
  destruct (shr (shr_record_of_loc mx lx) ex n) as [mrs' e'] eqn:Hshr.
  simpl fst in *. simpl snd in *. subst e'. fold t in Em. rewrite Em in *.
  assert (Hform :
    binary_round_aux 53 1024 s mx ex lx
    = let '(mrs'', e'') :=
        shr_fexp 53 1024 (round_nearest_even t (loc_of_shr_record mrs')) (ex + n)
          loc_Exact in
      match shr_m mrs'' with
      | 0 => S754_zero s
      | Z.pos m => if e'' <=? 1024 - 53 then S754_finite s m e'' else S754_infinity s
      | Z.neg _ => S754_nan
      end).
  { unfold binary_round_aux. unfold shr_fexp at 1. rewrite Hd.
    rewrite fexp_normal by lia.
    replace (53 + n + ex - 53 - ex) with n by lia.
    rewrite Hshr. rewrite Em. reflexivity. }
  rewrite Hform. clear Hform.
  destruct (round_nearest_even_inbetween Y (2 ^ n * U) t (loc_of_shr_record mrs')
              ltac:(nia) Hin') as (Hbr & Hround).
  split; [exact Hbr |].
  destruct Hround as [[Er Hle] | [Er Hge]]; rewrite Er.
  - left. split; [| exact Hle].
    rewrite shr_fexp_full by lia. simpl shr_m.
    destruct t as [| p | p]; try lia.
    assert (Hz : (ex + n <=? 1024 - 53) = true) by (apply Z.leb_le; lia).
    rewrite Hz. reflexivity.
  - right. split; [| exact Hge].
    unfold next_up. destruct (Z.eqb_spec (t + 1) (2 ^ 53)) as [Heq | Hne].
    + rewrite Heq. rewrite shr_fexp_carry by lia. simpl shr_m.
      assert (Hz : (ex + n + 1 <=? 1024 - 53) = true) by (apply Z.leb_le; lia).
      rewrite Hz. reflexivity.
    + rewrite shr_fexp_full by lia. simpl shr_m.
      destruct (t + 1) as [| p | p] eqn:Et; try lia.
      assert (Hz : (ex + n <=? 1024 - 53) = true) by (apply Z.leb_le; lia).
      rewrite Hz. reflexivity.
Qed.

Lemma finite_leb (m1 m2 : positive) (e1 e2 : Z) :
  e1 < e2 \/ (e1 = e2 /\ Zpos m1 <= Zpos m2) ->
  SFleb (S754_finite false m1 e1) (S754_finite false m2 e2) = true.
Proof.
  intros H. unfold SFleb, SFcompare.
  destruct (Z.compare_spec e1 e2) as [Heq | Hlt | Hgt]; [| reflexivity | lia].
  destruct H as [H | [_ H]]; [lia |].
  change (Pos.compare_cont Eq m1 m2) with (Pos.compare m1 m2).
  destruct (Pos.compare_spec m1 m2); try reflexivity. lia.
Qed.

Lemma next_up_cases (t e : Z) :
  2 ^ 52 <= t < 2 ^ 53 ->
  (t + 1 = 2 ^ 53 /\ next_up false t e = S754_finite false (Z.to_pos (2 ^ 52)) (e + 1)) \/
  (t + 1 < 2 ^ 53 /\ next_up false t e = S754_finite false (Z.to_pos (t + 1)) e).
Proof.
  intros Ht. unfold next_up.
  destruct (Z.eqb_spec (t + 1) (2 ^ 53)); [left | right]; split; try reflexivity; lia.
Qed.

Lemma nearest_mono (Y1 U1 e1 Y2 U2 e2 : Z) (f1 f2 : spec_float) :
  0 < U1 -> 0 < U2 -> -1074 <= e1 -> -1074 <= e2 ->
  nearest Y1 U1 e1 f1 -> nearest Y2 U2 e2 f2 ->
  Y1 * U2 * 2 ^ (e1 + 1074) < Y2 * U1 * 2 ^ (e2 + 1074) ->
  SFleb f1 f2 = true.
Proof.
  intros HU1 HU2 He1 He2 (t1 & Ht1 & Hb1 & Hf1) (t2 & Ht2 & Hb2 & Hf2) Hlt.
  set (P1 := 2 ^ (e1 + 1074)) in *. set (P2 := 2 ^ (e2 + 1074)) in *.
  assert (HP1 : 0 < P1) by (apply Z.pow_pos_nonneg; lia).
  assert (HP2 : 0 < P2) by (apply Z.pow_pos_nonneg; lia).
  change (2 ^ 52) with 4503599627370496 in *.
  change (2 ^ 53) with 9007199254740992 in *.
  assert (Hle : e1 <= e2).
  { apply Z.nlt_ge. intros Hgt.
    assert (HP : 2 * P2 <= P1).
    { assert (E : P1 = 2 * 2 ^ (e1 - e2 - 1) * P2).
      { subst P1 P2. rewrite <- (Z.pow_succ_r 2 (e1 - e2 - 1)) by lia.
        rewrite <- Z.pow_add_r by lia. f_equal. lia. }
      assert (0 < 2 ^ (e1 - e2 - 1)) by (apply Z.pow_pos_nonneg; lia).
      rewrite E. nia. }
    assert (H1 : 4503599627370496 * U1 <= Y1) by nia.
    assert (H2 : Y2 <= 9007199254740992 * U2) by nia.
    assert (H3 : Y2 * U1 * P2 <= 9007199254740992 * U2 * U1 * P2).
    { apply Z.mul_le_mono_nonneg_r; [lia |].
      apply Z.mul_le_mono_nonneg_r; [lia | exact H2]. }
    assert (H4 : 4503599627370496 * U1 * U2 * (2 * P2) <= Y1 * U2 * P1).
    { apply Z.mul_le_mono_nonneg; try nia. }
    nia. }
  assert (Hcase : e1 < e2 \/ (e1 = e2 /\ t1 <= t2 /\ Y1 * U2 < Y2 * U1)).
  { destruct (Z.eq_dec e1 e2) as [Heq | Hne]; [right | left; lia].
    split; [exact Heq |].
    assert (HP : P1 = P2) by (subst P1 P2; rewrite Heq; reflexivity).
    rewrite HP in Hlt.
    assert (Hyy : Y1 * U2 < Y2 * U1) by nia.
    split; [| exact Hyy].
    assert (t1 * U1 * U2 < (t2 + 1) * U2 * U1) by nia.
    assert (t1 * (U1 * U2) < (t2 + 1) * (U1 * U2)) by lia.
    assert (0 < U1 * U2) by nia. nia. }
  destruct (next_up_cases t1 e1 ltac:(lia)) as [[Hc1 En1] | [Hc1 En1]];
  destruct (next_up_cases t2 e2 ltac:(lia)) as [[Hc2 En2] | [Hc2 En2]];
  destruct Hf1 as [[-> Hd1] | [-> Hu1]]; destruct Hf2 as [[-> Hd2] | [-> Hu2]];
    rewrite ?En1, ?En2; apply finite_leb;
    rewrite ?Z2Pos.id by lia;
    change (2 ^ 52) with 4503599627370496;
    destruct Hcase as [Hlt' | (Heq & Htt & Hyy)]; try lia;
    try (right; split; [lia |];
         apply Z.nlt_ge; intros Hcontra;
         assert (t1 = t2) by lia; subst t2;
         assert ((2 * t1 + 1) * U1 * U2 <= 2 * Y1 * U2) by nia;
         assert (2 * Y2 * U1 <= (2 * t1 + 1) * U2 * U1) by nia;
         nia).
  exfalso. change (2 ^ 53) with 9007199254740992 in *.
  assert (t1 = t2) by lia. subst t2.
  assert ((2 * t1 + 1) * U1 * U2 <= 2 * Y1 * U2) by nia.
  assert (2 * Y2 * U1 <= (2 * t1 + 1) * U2 * U1) by nia.
  nia.
Qed.

Lemma rounds_to_mono (A1 B1 A2 B2 : Z) (f1 f2 : spec_float) :
  0 < B1 -> 0 < B2 ->
  rounds_to A1 B1 f1 -> rounds_to A2 B2 f2 ->
  A1 * B2 < A2 * B1 ->
  SFleb f1 f2 = true.
Proof.
  intros HB1 HB2 (Y1 & U1 & e1 & HU1 & He1 & Hv1 & Hn1)
         (Y2 & U2 & e2 & HU2 & He2 & Hv2 & Hn2) Hlt.
  apply (nearest_mono Y1 U1 e1 Y2 U2 e2 f1 f2); try assumption; try lia.
  set (P1 := 2 ^ (e1 + 1074)) in *. set (P2 := 2 ^ (e2 + 1074)) in *.
  set (K := 2 ^ 1074) in *.
  assert (HK : 0 < K) by (apply Z.pow_pos_nonneg; lia).
  assert (H1 : Y1 * U2 * P1 * (B1 * B2) = A1 * B2 * (K * U1 * U2)).
  { replace (Y1 * U2 * P1 * (B1 * B2)) with (Y1 * P1 * B1 * (U2 * B2)) by ring.
    rewrite Hv1. ring. }
  assert (H2 : Y2 * U1 * P2 * (B1 * B2) = A2 * B1 * (K * U1 * U2)).
  { replace (Y2 * U1 * P2 * (B1 * B2)) with (Y2 * P2 * B2 * (U1 * B1)) by ring.
    rewrite Hv2. ring. }
  assert (HKU : 0 < K * U1 * U2) by nia.
  assert (HBB : 0 < B1 * B2) by nia.
  assert (H3 : A1 * B2 * (K * U1 * U2) < A2 * B1 * (K * U1 * U2))
    by (apply Z.mul_lt_mono_pos_r; assumption).
  rewrite <- H1, <- H2 in H3.
  apply (Z.mul_lt_mono_pos_r (B1 * B2)); assumption.
Qed.

Lemma nearest_normal (Y U e : Z) (f : spec_float) :
  -1074 <= e <= 970 -> nearest Y U e f ->
  exists m e', f = S754_finite false m e' /\ 2 ^ 52 <= Zpos m < 2 ^ 53 /\ e <= e' <= e + 1.
Proof.
  intros He (t & Ht & _ & Hf).
  destruct Hf as [[-> _] | [-> _]].
  - exists (Z.to_pos t), e. rewrite Z2Pos.id by lia. repeat split; lia.
  - destruct (next_up_cases t e Ht) as [[_ ->] | [Hlt ->]].
    + exists (Z.to_pos (2 ^ 52)), (e + 1). repeat split; try lia; reflexivity.
    + exists (Z.to_pos (t + 1)), e. rewrite Z2Pos.id by lia. repeat split; lia.
Qed.

Lemma pos_iter_xO (p k : positive) : Zpos (Pos.iter xO p k) = Zpos p * 2 ^ Zpos k.
Proof.
  induction k as [| k IH] using Pos.peano_ind.
  - simpl Pos.iter. rewrite (Pos2Z.inj_xO p). change (2 ^ 1) with 2. lia.
  - rewrite Pos.iter_succ. rewrite (Pos2Z.inj_xO (Pos.iter xO p k)), IH.
    rewrite Pos2Z.inj_succ, Z.pow_succ_r by lia. ring.
Qed.

(** [n as f64] is the float nearest [n]. *)
Lemma of_u64_rounds (n : Z) :
  0 < n < 2 ^ 64 ->
  exists Y U e,
    0 < U /\ -52 <= e <= 11 /\ Y * 2 ^ (e + 1074) = n * 2 ^ 1074 * U /\
    nearest Y U e (F64.of_u64 n).
Proof.
  intros [Hpos Hhi]. destruct n as [| p | p]; try lia.
  unfold F64.of_u64, binary_normalize, binary_round, F64.prec, F64.emax.
  pose proof (digits2_pos_bounds p) as Hb.
  set (d := Zpos (digits2_pos p)) in *.
  assert (Hd : 1 <= d <= 64).
  { split; [subst d; lia |].
    apply Z.nlt_ge. intros Hgt.
    assert (2 ^ 64 <= 2 ^ (d - 1)) by (apply Z.pow_le_mono_r; lia). lia. }
  rewrite fexp_normal by lia.
  unfold shl_align.
  destruct (Z.ltb_spec d 53) as [Hlt | Hge].
  - assert (E : d + 0 - 53 - 0 = Zneg (Z.to_pos (53 - d))).
    { rewrite <- Pos2Z.opp_pos, Z2Pos.id by lia. lia. }
    rewrite E. set (k := Z.to_pos (53 - d)).
    assert (Hk : Zpos k = 53 - d) by (subst k; apply Z2Pos.id; lia).
    pose proof (pos_iter_xO p k) as Hmz. rewrite Hk in Hmz.
    assert (Hpow : 2 ^ (d - 1) * 2 ^ (53 - d) = 2 ^ 52)
      by (rewrite <- Z.pow_add_r by lia; f_equal; lia).
    assert (Hpow' : 2 ^ d * 2 ^ (53 - d) = 2 ^ 53)
      by (rewrite <- Z.pow_add_r by lia; f_equal; lia).
    assert (Hp2 : 0 < 2 ^ (53 - d)) by (apply Z.pow_pos_nonneg; lia).
    assert (Hfull : 2 ^ 52 <= Zpos (Pos.iter xO p k) < 2 ^ 53).
    { rewrite Hmz, <- Hpow, <- Hpow'. nia. }
    destruct (binary_round_aux_spec false (Zpos (Pos.iter xO p k)) (d + 0 - 53) 0
                loc_Exact (Zpos (Pos.iter xO p k)) 1) as (t & Ht & Hbr & Hf);
      try lia.
    { apply Zdigits2_unique; [lia |]. change (53 + 0 - 1) with 52.
      change (53 + 0) with 53. exact Hfull. }
    { simpl. lia. }
    exists (Zpos (Pos.iter xO p k)), (2 ^ 0 * 1), (d + 0 - 53 + 0).
    split; [simpl; lia |]. split; [lia |]. split.
    + rewrite Hmz. change (2 ^ 0 * 1) with 1.
      replace (d + 0 - 53 + 0 + 1074) with ((d - 53 + 1074)) by lia.
      replace (Zpos p * 2 ^ (53 - d) * 2 ^ (d - 53 + 1074))
        with (Zpos p * (2 ^ (53 - d) * 2 ^ (d - 53 + 1074))) by ring.
      rewrite <- Z.pow_add_r by lia.
      replace (53 - d + (d - 53 + 1074)) with 1074 by lia. ring.
    + exists t. split; [exact Ht |]. split; [exact Hbr | exact Hf].
  - assert (E : exists q, d + 0 - 53 - 0 = q /\ 0 <= q) by (eexists; split; [reflexivity | lia]).
    destruct E as (q & Eq & Hq). rewrite Eq.
    assert (Hmatch : (let '(mz, ez) :=
                        match q with
                        | Z.neg d0 => (Pos.iter xO p d0, d + 0 - 53)
                        | _ => (p, 0)
                        end in binary_round_aux 53 1024 false (Zpos mz) ez loc_Exact)
                     = binary_round_aux 53 1024 false (Zpos p) 0 loc_Exact).
    { destruct q; try lia; reflexivity. }
    rewrite Hmatch. clear Hmatch.
    destruct (binary_round_aux_spec false (Zpos p) 0 (d - 53) loc_Exact (Zpos p) 1)
      as (t & Ht & Hbr & Hf); try lia.
    { simpl Zdigits2. fold d. lia. }
    { simpl. lia. }
    exists (Zpos p), (2 ^ (d - 53) * 1), (0 + (d - 53)).
    assert (Hp2 : 0 < 2 ^ (d - 53)) by (apply Z.pow_pos_nonneg; lia).
    split; [lia |]. split; [lia |]. split.
    + replace (0 + (d - 53) + 1074) with ((d - 53) + 1074) by lia.
      rewrite Z.pow_add_r by lia. ring.
    + exists t. split; [exact Ht |]. split; [exact Hbr | exact Hf].
Qed.

Lemma new_location_inbetween (nb q r : Z) :
  0 < nb -> 0 <= r < nb ->
  inbetween (q * nb + r) nb q (new_location nb r).
Proof.
  intros Hnb Hr. unfold new_location.
  destruct (Z.even nb) eqn:Heven.
  - unfold new_location_even.
    destruct (Z.eqb_spec r 0) as [-> | Hne]; [simpl; lia |].
    destruct (Z.compare_spec (2 * r) nb); simpl; lia.
  - unfold new_location_odd.
    destruct (Z.eqb_spec r 0) as [-> | Hne]; [simpl; lia |].
    assert (Hodd : Z.odd nb = true) by (rewrite <- Z.negb_even, Heven; reflexivity).
    apply Z.odd_spec in Hodd. destruct Hodd as (j & Hj).
    destruct (Z.compare_spec (2 * r + 1) nb); simpl; lia.
Qed.

(** The quotient of two floats with full mantissas is the float nearest the
    quotient of their values. *)
Lemma div_rounds (mx my : positive) (ex ey : Z) :
  2 ^ 52 <= Zpos mx < 2 ^ 53 -> 2 ^ 52 <= Zpos my < 2 ^ 53 ->
  -52 <= ex <= 12 -> -52 <= ey <= 12 ->
  rounds_to (Zpos mx * 2 ^ (ex + 52)) (Zpos my * 2 ^ (ey + 52))
    (F64.div (S754_finite false mx ex) (S754_finite false my ey)).
Proof.
  intros Hmx Hmy Hex Hey.
  unfold F64.div, SFdiv, SFdiv_core_binary, F64.prec, F64.emax.
  rewrite (Zdigits2_unique (Zpos mx) 53) by (change (53 - 1) with 52; lia).
  rewrite (Zdigits2_unique (Zpos my) 53) by (change (53 - 1) with 52; lia).
  replace (53 + ex - (53 + ey)) with (ex - ey) by lia.
  rewrite fexp_normal by lia.
  rewrite Z.min_l by lia.
  replace (ex - ey - (ex - ey - 53)) with 53 by lia.
  rewrite Z.shiftl_mul_pow2 by lia.
  set (Y := Zpos mx * 2 ^ 53).
  pose proof (Z_div_mod Y (Zpos my) ltac:(lia)) as Hdm.
  unfold Z.div_eucl at 1 in Hdm. fold (Z.div_eucl Y (Zpos my)) in Hdm.
  destruct (Z.div_eucl Y (Zpos my)) as [q r]. destruct Hdm as [HY Hr].
  change (2 ^ 52) with 4503599627370496 in *.
  change (2 ^ 53) with 9007199254740992 in *.
  assert (Hq : 4503599627370496 <= q < 2 * 9007199254740992) by (subst Y; nia).
  pose proof (new_location_inbetween (Zpos my) q r ltac:(lia) Hr) as Hin.
  replace (q * Zpos my + r) with Y in Hin by lia.
  simpl xorb.
  destruct (Z.ltb_spec q 9007199254740992) as [Hlt | Hge].
  - destruct (binary_round_aux_spec false q (ex - ey - 53) 0 (new_location (Zpos my) r)
                Y (Zpos my)) as (t & Ht & Hbr & Hf); try lia.
    { apply Zdigits2_unique; [lia |]. change (2 ^ (53 + 0 - 1)) with 4503599627370496.
      change (2 ^ (53 + 0)) with 9007199254740992. lia. }
    { exact Hin. }
    exists Y, (2 ^ 0 * Zpos my), (ex - ey - 53 + 0).
    split; [simpl; lia |]. split; [lia |]. split.
    + subst Y. change (2 ^ 0) with 1.
      change 9007199254740992 with (2 ^ 53).
      replace (Zpos mx * 2 ^ 53 * 2 ^ (ex - ey - 53 + 0 + 1074) * (Zpos my * 2 ^ (ey + 52)))
        with (Zpos mx * Zpos my * (2 ^ 53 * 2 ^ (ex - ey - 53 + 0 + 1074) * 2 ^ (ey + 52)))
        by ring.
      replace (Zpos mx * 2 ^ (ex + 52) * 2 ^ 1074 * (1 * Zpos my))
        with (Zpos mx * Zpos my * (2 ^ (ex + 52) * 2 ^ 1074)) by ring.
      f_equal. rewrite <- !Z.pow_add_r by lia. f_equal. lia.
    + exists t. split; [exact Ht |]. split; [exact Hbr | exact Hf].
  - destruct (binary_round_aux_spec false q (ex - ey - 53) 1 (new_location (Zpos my) r)
                Y (Zpos my)) as (t & Ht & Hbr & Hf); try lia.
    { apply Zdigits2_unique; [lia |]. change (2 ^ (53 + 1 - 1)) with 9007199254740992.
      change (2 ^ (53 + 1)) with 18014398509481984. lia. }
    { exact Hin. }
    exists Y, (2 ^ 1 * Zpos my), (ex - ey - 53 + 1).
    split; [simpl; lia |]. split; [lia |]. split.
    + subst Y. change 9007199254740992 with (2 ^ 53).
      replace (Zpos mx * 2 ^ 53 * 2 ^ (ex - ey - 53 + 1 + 1074) * (Zpos my * 2 ^ (ey + 52)))
        with (Zpos mx * Zpos my * (2 ^ 53 * 2 ^ (ex - ey - 53 + 1 + 1074) * 2 ^ (ey + 52)))
        by ring.
      replace (Zpos mx * 2 ^ (ex + 52) * 2 ^ 1074 * (2 ^ 1 * Zpos my))
        with (Zpos mx * Zpos my * (2 ^ (ex + 52) * 2 ^ 1074 * 2 ^ 1)) by ring.
      f_equal. rewrite <- !Z.pow_add_r by lia. f_equal. lia.
    + exists t. split; [exact Ht |]. split; [exact Hbr | exact Hf].
Qed.

Lemma finite_leb_inv (m1 m2 : positive) (e1 e2 : Z) :
  SFleb (S754_finite false m1 e1) (S754_finite false m2 e2) = true ->
  e1 < e2 \/ (e1 = e2 /\ Zpos m1 <= Zpos m2).
Proof.
  unfold SFleb, SFcompare.
  destruct (Z.compare_spec e1 e2) as [Heq | Hlt | Hgt]; [| left; lia | discriminate].
  change (Pos.compare_cont Eq m1 m2) with (Pos.compare m1 m2).
  destruct (Pos.compare_spec m1 m2); try discriminate; intros _; right; lia.
Qed.

Lemma leb_scaled_value (m1 m2 : positive) (e1 e2 : Z) :
  2 ^ 52 <= Zpos m1 < 2 ^ 53 -> 2 ^ 52 <= Zpos m2 < 2 ^ 53 ->
  -52 <= e1 -> -52 <= e2 ->
  SFleb (S754_finite false m1 e1) (S754_finite false m2 e2) = true ->
  S754_finite false m1 e1 = S754_finite false m2 e2 \/
  scaled_value m1 e1 < scaled_value m2 e2.
Proof.
  intros H1 H2 He1 He2 Hle. apply finite_leb_inv in Hle.
  unfold scaled_value.
  change (2 ^ 52) with 4503599627370496 in *.
  change (2 ^ 53) with 9007199254740992 in *.
  destruct Hle as [Hlt | [-> Hm]].
  - right.
    assert (E : 2 ^ (e2 + 52) = 2 * 2 ^ (e2 - e1 - 1) * 2 ^ (e1 + 52)).
    { rewrite <- (Z.pow_succ_r 2 (e2 - e1 - 1)) by lia.
      rewrite <- Z.pow_add_r by lia. f_equal. lia. }
    assert (0 < 2 ^ (e2 - e1 - 1)) by (apply Z.pow_pos_nonneg; lia).
    assert (0 < 2 ^ (e1 + 52)) by (apply Z.pow_pos_nonneg; lia).
    rewrite E. nia.
  - destruct (Z.eq_dec (Zpos m1) (Zpos m2)) as [Heq | Hne].
    + left. inversion Heq. reflexivity.
    + right. assert (0 < 2 ^ (e2 + 52)) by (apply Z.pow_pos_nonneg; lia). nia.
Qed.

Lemma of_u64_normal (n : Z) :
  0 < n < 2 ^ 64 ->
  rounds_to n 1 (F64.of_u64 n) /\
  exists m e, F64.of_u64 n = S754_finite false m e /\
              2 ^ 52 <= Zpos m < 2 ^ 53 /\ -52 <= e <= 12.
Proof.
  intros Hn. destruct (of_u64_rounds n Hn) as (Y & U & e & HU & He & Hv & Hnear).
  split.
  - exists Y, U, e. split; [exact HU |]. split; [lia |]. split; [lia | exact Hnear].
  - destruct (nearest_normal Y U e _ ltac:(lia) Hnear) as (m & e' & Hf & Hm & He').
    exists m, e'. split; [exact Hf |]. split; [exact Hm | lia].
Qed.

Lemma of_u64_mono (n1 n2 : Z) :
  0 < n1 -> n1 <= n2 -> n2 < 2 ^ 64 ->
  SFleb (F64.of_u64 n1) (F64.of_u64 n2) = true.
Proof.
  intros H1 Hle H2.
  destruct (of_u64_normal n1 ltac:(lia)) as (Hr1 & m1 & e1 & Hf1 & Hm1 & He1).
  destruct (Z.eq_dec n1 n2) as [<- | Hne].
  - rewrite Hf1. apply finite_leb. right. split; lia.
  - destruct (of_u64_normal n2 ltac:(lia)) as (Hr2 & _).
    apply (rounds_to_mono n1 1 n2 1); try assumption; lia.
Qed.

Lemma div_normal (mx my : positive) (ex ey : Z) :
  2 ^ 52 <= Zpos mx < 2 ^ 53 -> 2 ^ 52 <= Zpos my < 2 ^ 53 ->
  -52 <= ex <= 12 -> -52 <= ey <= 12 ->
  exists m e,
    F64.div (S754_finite false mx ex) (S754_finite false my ey) = S754_finite false m e /\
    2 ^ 52 <= Zpos m < 2 ^ 53 /\ -1074 <= e <= 971.
Proof.
  intros Hmx Hmy Hex Hey.
  destruct (div_rounds mx my ex ey Hmx Hmy Hex Hey) as (Y & U & e & HU & He & _ & Hnear).
  destruct (nearest_normal Y U e _ He Hnear) as (m & e' & Hf & Hm & He').
  exists m, e'. split; [exact Hf |]. split; [exact Hm | lia].
Qed.

Lemma scaled_value_pos (m : positive) (e : Z) : -52 <= e -> 0 < scaled_value m e.
Proof.
  intros He. unfold scaled_value.
  assert (0 < 2 ^ (e + 52)) by (apply Z.pow_pos_nonneg; lia). nia.
Qed.

(** Division by a larger float gives a smaller quotient, division of a
    larger float a larger one. *)
Lemma div_mono (mx1 mx2 my1 my2 : positive) (ex1 ex2 ey1 ey2 : Z) :
  2 ^ 52 <= Zpos mx1 < 2 ^ 53 -> 2 ^ 52 <= Zpos mx2 < 2 ^ 53 ->
  2 ^ 52 <= Zpos my1 < 2 ^ 53 -> 2 ^ 52 <= Zpos my2 < 2 ^ 53 ->
  -52 <= ex1 <= 12 -> -52 <= ex2 <= 12 -> -52 <= ey1 <= 12 -> -52 <= ey2 <= 12 ->
  SFleb (S754_finite false mx1 ex1) (S754_finite false mx2 ex2) = true ->
  SFleb (S754_finite false my1 ey1) (S754_finite false my2 ey2) = true ->
  SFleb (F64.div (S754_finite false mx1 ex1) (S754_finite false my2 ey2))
        (F64.div (S754_finite false mx2 ex2) (S754_finite false my1 ey1)) = true.
Proof.
  intros Hx1 Hx2 Hy1 Hy2 Hex1 Hex2 Hey1 Hey2 Hx Hy.
  destruct (leb_scaled_value mx1 mx2 ex1 ex2 Hx1 Hx2 ltac:(lia) ltac:(lia) Hx) as [Ex | Lx];
  destruct (leb_scaled_value my1 my2 ey1 ey2 Hy1 Hy2 ltac:(lia) ltac:(lia) Hy) as [Ey | Ly].
  - rewrite Ex, Ey.
    inversion Ex; subst. inversion Ey; subst.
    destruct (div_normal mx2 my2 ex2 ey2 Hx2 Hy2 Hex2 Hey2) as (m & e & -> & Hm & He).
    apply finite_leb. right. split; lia.
  - inversion Ex; subst.
    pose proof (scaled_value_pos mx2 ex2 ltac:(lia)).
    pose proof (scaled_value_pos my1 ey1 ltac:(lia)).
    pose proof (scaled_value_pos my2 ey2 ltac:(lia)).
    apply (rounds_to_mono (scaled_value mx2 ex2) (scaled_value my2 ey2)
             (scaled_value mx2 ex2) (scaled_value my1 ey1));
      try assumption; try (apply div_rounds; assumption). nia.
  - inversion Ey; subst.
    pose proof (scaled_value_pos mx1 ex1 ltac:(lia)).
    pose proof (scaled_value_pos mx2 ex2 ltac:(lia)).
    pose proof (scaled_value_pos my2 ey2 ltac:(lia)).
    apply (rounds_to_mono (scaled_value mx1 ex1) (scaled_value my2 ey2)
             (scaled_value mx2 ex2) (scaled_value my2 ey2));
      try assumption; try (apply div_rounds; assumption). nia.
  - pose proof (scaled_value_pos mx1 ex1 ltac:(lia)).
    pose proof (scaled_value_pos mx2 ex2 ltac:(lia)).
    pose proof (scaled_value_pos my1 ey1 ltac:(lia)).
    pose proof (scaled_value_pos my2 ey2 ltac:(lia)).
    apply (rounds_to_mono (scaled_value mx1 ex1) (scaled_value my2 ey2)
             (scaled_value mx2 ex2) (scaled_value my1 ey1));
      try assumption; try (apply div_rounds; assumption). nia.
Qed.

Lemma calculate_collateral_ratio_positive_debt (collateral debt : Z) :
  0 < debt ->
  calculate_collateral_ratio collateral debt
  = F64.div (F64.of_u64 collateral) (F64.of_u64 debt).
Proof.
  intros Hd. unfold calculate_collateral_ratio.
  destruct (Z.eqb_spec debt 0); [lia | reflexivity].
Qed.

(** What the function returns at a positive debt: zero for no collateral,
    and otherwise a float with a full mantissa, neither infinite nor NaN. *)
Lemma calculate_collateral_ratio_finite (collateral debt : Z) :
  is_u64 collateral -> 0 < debt < 2 ^ 64 ->
  (collateral = 0 /\ calculate_collateral_ratio collateral debt = S754_zero false) \/
  (0 < collateral /\
   exists m e, calculate_collateral_ratio collateral debt = S754_finite false m e /\
               2 ^ 52 <= Zpos m < 2 ^ 53 /\ -1074 <= e <= 971).
Proof.
  intros Hc Hd. rewrite calculate_collateral_ratio_positive_debt by lia.
  destruct (of_u64_normal debt Hd) as (_ & my & ey & Ey & Hmy & Hey). rewrite Ey.
  destruct (Z.eq_dec collateral 0) as [-> | Hne].
  - left. split; reflexivity.
  - right. split; [unfold is_u64, U64_MODULUS in Hc; lia |].
    destruct (of_u64_normal collateral ltac:(unfold is_u64, U64_MODULUS in Hc; lia))
      as (_ & mx & ex & Ex & Hmx & Hex).
    rewrite Ex. apply div_normal; assumption.
Qed.

Lemma leb_MAX (f : spec_float) :
  f = S754_zero false \/
  (exists m e, f = S754_finite false m e /\ 2 ^ 52 <= Zpos m < 2 ^ 53 /\ e <= 971) ->
  F64.leb f F64.MAX = true.
Proof.
  intros [-> | (m & e & -> & Hm & He)]; [reflexivity |].
  unfold F64.leb, F64.MAX. change (SFmax_float F64.prec F64.emax)
    with (S754_finite false 9007199254740991 971).
  apply finite_leb. change (2 ^ 53) with 9007199254740992 in Hm. lia.
Qed.

(** The ratio grows with the collateral and falls with the debt, the
    sentinel of a zero debt included. *)
Lemma calculate_collateral_ratio_mono (c1 c2 m1 m2 : Z) :
  0 <= c1 <= c2 -> c2 < 2 ^ 64 -> 0 <= m1 <= m2 -> m2 < 2 ^ 64 ->
  F64.leb (calculate_collateral_ratio c1 m2) (calculate_collateral_ratio c2 m1) = true.
Proof.
  intros Hc Hc2 Hm Hm2.
  destruct (Z.eq_dec m1 0) as [-> | Hm1].
  - change (calculate_collateral_ratio c2 0) with F64.MAX.
    destruct (Z.eq_dec m2 0) as [-> | Hne]; [reflexivity |].
    apply leb_MAX.
    destruct (calculate_collateral_ratio_finite c1 m2 ltac:(unfold is_u64, U64_MODULUS; lia)
                ltac:(lia)) as [[_ E] | (_ & m & e & E & Hmm & He)].
    + left. exact E.
    + right. exists m, e. split; [exact E |]. split; [exact Hmm | lia].
  - destruct (calculate_collateral_ratio_finite c2 m1 ltac:(unfold is_u64, U64_MODULUS; lia)
                ltac:(lia)) as [[E0 E2] | (Hpos2 & q2 & e2 & E2 & Hq2 & He2)].
    + subst c2. assert (c1 = 0) by lia. subst c1.
      destruct (calculate_collateral_ratio_finite 0 m2 ltac:(unfold is_u64, U64_MODULUS; lia)
                  ltac:(lia)) as [[_ E1] | (Hbad & _)]; [| lia].
      rewrite E1, E2. reflexivity.
    + destruct (Z.eq_dec c1 0) as [-> | Hc1].
      * destruct (calculate_collateral_ratio_finite 0 m2 ltac:(unfold is_u64, U64_MODULUS; lia)
                    ltac:(lia)) as [[_ E1] | (Hbad & _)]; [| lia].
        rewrite E1, E2. reflexivity.
      * rewrite !calculate_collateral_ratio_positive_debt by lia.
        destruct (of_u64_normal c1 ltac:(lia)) as (_ & mx1 & ex1 & Ex1 & Hx1 & Hex1).
        destruct (of_u64_normal c2 ltac:(lia)) as (_ & mx2 & ex2 & Ex2 & Hx2 & Hex2).
        destruct (of_u64_normal m1 ltac:(lia)) as (_ & my1 & ey1 & Ey1 & Hy1 & Hey1).
        destruct (of_u64_normal m2 ltac:(lia)) as (_ & my2 & ey2 & Ey2 & Hy2 & Hey2).
        pose proof (of_u64_mono c1 c2 ltac:(lia) ltac:(lia) ltac:(lia)) as Hx.
        pose proof (of_u64_mono m1 m2 ltac:(lia) ltac:(lia) ltac:(lia)) as Hy.
        rewrite Ex1, Ex2 in Hx. rewrite Ey1, Ey2 in Hy.
        rewrite Ex1, Ex2, Ey1, Ey2.
        apply div_mono; assumption.
Qed.

(** The test of TEST_STRATEGY.md on the body of ARCHITECTURE.md:
    [calculate_collateral_ratio(65_000_000, 50_000_000)] is 1.3 (the float
    5854679515581645 * 2^-52), below 2, and not the 13000 that the test
    asserts. *)
Example test_calculate_collateral_ratio :
  calculate_collateral_ratio 65000000 50000000
  = S754_finite false 5854679515581645 (-52) /\
  F64.leb (calculate_collateral_ratio 65000000 50000000) (F64.of_u64 2) = true /\
  calculate_collateral_ratio 65000000 50000000 <> F64.of_u64 13000.
Proof. vm_compute. repeat split; try reflexivity. discriminate. Qed.

(** C6, the claim as stated, fails on both values.  For a collateral of 1000
    at a price of 65,000 (a value of 65,000,000) and no debt the function
    returns [f64::MAX], about 1.8 * 10^308, and not 10000.  For the same
    value and a debt of 50,000,000, where the floor of the claim is 13000,
    it returns 1.3. *)
Lemma calculate_collateral_ratio_is_not_in_basis_points :
  RatioCalculator.collateral_value 1 1000 65000 = 65000000 /\
  calculate_collateral_ratio (RatioCalculator.collateral_value 1 1000 65000) 0
  = S754_finite false 9007199254740991 971 /\
  F64.of_u64 10000 = S754_finite false 5497558138880000 (-39) /\
  calculate_collateral_ratio (RatioCalculator.collateral_value 1 1000 65000) 0
  <> F64.of_u64 10000 /\
  RatioCalculator.collateral_value 1 1000 65000 * 10000 / 50000000 = 13000 /\
  calculate_collateral_ratio (RatioCalculator.collateral_value 1 1000 65000) 50000000
  = S754_finite false 5854679515581645 (-52) /\
  calculate_collateral_ratio (RatioCalculator.collateral_value 1 1000 65000) 50000000
  <> F64.of_u64 13000.
Proof. vm_compute. repeat split; try reflexivity; discriminate. Qed.

(** C6, amended: at a zero debt [calculate_collateral_ratio] returns the
    sentinel [f64::MAX] without dividing.  At any other debt it divides, and
    the divisor [debt as f64] is then a finite number other than zero: no
    division by zero is ever performed, and what is returned is zero or a
    finite positive number, never an infinity and never NaN. *)
Theorem calculate_collateral_ratio_sentinel (collateral debt : Z) :
  is_u64 collateral -> is_u64 debt ->
  (debt = 0 -> calculate_collateral_ratio collateral debt = F64.MAX) /\
  (debt <> 0 ->
   (exists m e, F64.of_u64 debt = S754_finite false m e) /\
   calculate_collateral_ratio collateral debt
   = F64.div (F64.of_u64 collateral) (F64.of_u64 debt) /\
   (calculate_collateral_ratio collateral debt = S754_zero false \/
    exists m e, calculate_collateral_ratio collateral debt = S754_finite false m e)).
Proof.
  intros Hc Hd. split.
  - intros ->. reflexivity.
  - intros Hne. unfold is_u64, U64_MODULUS in Hd.
    destruct (of_u64_normal debt ltac:(lia)) as (_ & m & e & E & _).
    split; [exists m, e; exact E |].
    split; [apply calculate_collateral_ratio_positive_debt; lia |].
    destruct (calculate_collateral_ratio_finite collateral debt Hc ltac:(lia))
      as [[_ E0] | (_ & q & k & Eq & _)].
    + left. exact E0.
    + right. exists q, k. exact Eq.
Qed.

(** C6, amended, on the figures of the counterexample. *)
Lemma calculate_collateral_ratio_sentinel_witness :
  (is_u64 65000000 /\ is_u64 0) /\
  calculate_collateral_ratio 65000000 0 = F64.MAX.
Proof.
  assert (H1 : is_u64 65000000) by (unfold is_u64, U64_MODULUS; lia).
  assert (H2 : is_u64 0) by (unfold is_u64, U64_MODULUS; lia).
  split; [split; assumption |].
  exact (proj1 (calculate_collateral_ratio_sentinel 65000000 0 H1 H2) eq_refl).
Defined.

(** C9: with the collateral and the price fixed the ratio falls as the debt
    grows, the [f64::MAX] of a zero debt being above every other ratio; with
    the collateral and the debt fixed it grows with the price.  The order is
    that of [f64]; the amounts are [u64], as the function takes them. *)
Theorem calculate_collateral_ratio_monotone (scale c : Z) :
  0 < scale -> 0 <= c ->
  (forall p m1 m2,
     0 <= p -> is_u64 (RatioCalculator.collateral_value scale c p) ->
     0 <= m1 <= m2 -> is_u64 m2 ->
     F64.leb (calculate_collateral_ratio (RatioCalculator.collateral_value scale c p) m2)
             (calculate_collateral_ratio (RatioCalculator.collateral_value scale c p) m1)
     = true) /\
  (forall m p1 p2,
     is_u64 m -> 0 <= p1 <= p2 ->
     is_u64 (RatioCalculator.collateral_value scale c p2) ->
     F64.leb (calculate_collateral_ratio (RatioCalculator.collateral_value scale c p1) m)
             (calculate_collateral_ratio (RatioCalculator.collateral_value scale c p2) m)
     = true).
Proof.
  intros Hs Hc. split.
  - intros p m1 m2 Hp Hv Hm Hm2. unfold is_u64, U64_MODULUS in *.
    apply calculate_collateral_ratio_mono; lia.
  - intros m p1 p2 Hm Hp Hv. unfold is_u64, U64_MODULUS in *.
    pose proof (collateral_value_nonneg scale c p1 Hs Hc ltac:(lia)).
    pose proof (collateral_value_mono_price scale c p1 p2 Hs Hc ltac:(lia)).
    apply calculate_collateral_ratio_mono; lia.
Qed.

(** C9 at the sentinel: a value of 65,000,000 against a debt of 50,000,000
    gives 1.3, which is below the [f64::MAX] of no debt. *)
Lemma calculate_collateral_ratio_monotone_witness :
  (0 < 1 /\ 0 <= 1000 /\ 0 <= 65000 /\
   is_u64 (RatioCalculator.collateral_value 1 1000 65000) /\
   0 <= 0 <= 50000000 /\ is_u64 50000000) /\
  F64.leb (calculate_collateral_ratio (RatioCalculator.collateral_value 1 1000 65000)
             50000000)
          (calculate_collateral_ratio (RatioCalculator.collateral_value 1 1000 65000) 0)
  = true.
Proof.
  assert (Hv : is_u64 (RatioCalculator.collateral_value 1 1000 65000))
    by (vm_compute; split; [discriminate | reflexivity]).
  assert (Hm : is_u64 50000000) by (unfold is_u64, U64_MODULUS; lia).
  split; [repeat split; try lia; first [apply Hv | apply Hm] |].
  apply (proj1 (calculate_collateral_ratio_monotone 1 1000 ltac:(lia) ltac:(lia))
           65000 0 50000000); first [lia | assumption].
Defined.

(** ** The endpoints *)

Ltac unfold_endpoint :=
  unfold mint_bollar, close_cdp, liquidate_cdp, bind, ret, fail, gets,
    registry_get, registry_insert, external, external_read, record_audit_event,
    get_current_price, calculate_max_mintable, calculate_collateral_ratio_of,
    is_liquidatable, calculate_liquidation_reward.

Lemma CDPStatus_eqb_eq (a b : CDPStatus) : CDPStatus_eqb a b = true <-> a = b.
Proof. destruct a, b; simpl; split; congruence. Qed.

(** [close_cdp] turns away a position that is not Active and writes nothing. *)
Lemma close_cdp_terminal_rejected (E : Env) (w : World) (cdp_id bollar_amount : Z)
      (cdp : CDP) :
  CDP_REGISTRY w !! cdp_id = Some cdp ->
  owner cdp = caller E ->
  status cdp <> Active ->
  close_cdp E cdp_id bollar_amount w = (Err CDPAlreadyLiquidated, w).
Proof.
  intros Hget Hown Hst. unfold_endpoint. rewrite Hget, Hown, String.eqb_refl. simpl.
  destruct (CDPStatus_eqb (status cdp) Active) eqn:Heq; [| reflexivity].
  apply CDPStatus_eqb_eq in Heq. contradiction.
Qed.

(** [close_cdp] never reads the price: whatever sample is cached, it answers
    the same and leaves the same registry and the same calls. *)
Lemma close_cdp_ignores_price (E : Env) (w : World) (cdp_id bollar_amount : Z)
      (p : PriceData) :
  fst (close_cdp E cdp_id bollar_amount (set_price_cache p w))
  = fst (close_cdp E cdp_id bollar_amount w) /\
  snd (close_cdp E cdp_id bollar_amount (set_price_cache p w))
  = set_price_cache p (snd (close_cdp E cdp_id bollar_amount w)).
Proof.
  unfold_endpoint. simpl.
  destruct (CDP_REGISTRY w !! cdp_id) as [cdp |]; [| split; reflexivity].
  destruct (negb (String.eqb (owner cdp) (caller E))); [split; reflexivity |].
  destruct (negb (CDPStatus_eqb (status cdp) Active)); [split; reflexivity |].
  destruct (bollar_amount <? minted_bollar cdp); [split; reflexivity |].
  destruct (runes_burn_bollar E (owner cdp) (minted_bollar cdp));
    [| split; reflexivity].
  simpl.
  destruct (release_btc_collateral E (btc_tx_hash cdp) (owner cdp));
    split; reflexivity.
Qed.

(** C7, the claim as stated, fails on the debt: alice closes her position by
    repaying the whole of its 5,000,000,000,000; the close succeeds, the
    status is Closed, and the record still shows the debt. *)
Lemma close_cdp_keeps_debt_on_record :
  is_ok (fst (close_cdp alice_calls 1 5000000000000 alice_world)) = true /\
  stored_status (snd (close_cdp alice_calls 1 5000000000000 alice_world))
  = Some Closed /\
  stored_debt (snd (close_cdp alice_calls 1 5000000000000 alice_world))
  = Some 5000000000000 /\
  stored_debt (snd (close_cdp alice_calls 1 5000000000000 alice_world)) <> Some 0.
Proof. vm_compute. repeat split; congruence. Qed.

(** C7, amended: for an Active position of the caller, with the token burn and
    the release of the deposit going through, [close_cdp] succeeds exactly
    when [bollar_amount >= minted_bollar].  It then burns the whole debt from
    the owner, releases the deposit to the owner, reports the full collateral
    as released and stores the record with status Closed and nothing else
    changed; a smaller [bollar_amount] is refused and nothing is written. *)
Theorem close_cdp_full_repayment (E : Env) (w : World) (cdp_id bollar_amount : Z)
        (cdp : CDP) (burn_tx release_tx : string) :
  CDP_REGISTRY w !! cdp_id = Some cdp ->
  owner cdp = caller E ->
  status cdp = Active ->
  runes_burn_bollar E (owner cdp) (minted_bollar cdp) = Ok burn_tx ->
  release_btc_collateral E (btc_tx_hash cdp) (owner cdp) = Ok release_tx ->
  let out := close_cdp E cdp_id bollar_amount w in
  (is_ok (fst out) = true <-> bollar_amount >= minted_bollar cdp) /\
  (bollar_amount >= minted_bollar cdp ->
     fst out = Ok (mkCloseResult release_tx burn_tx (collateral_amount cdp)) /\
     CDP_REGISTRY (snd out) = <[cdp_id := set_status Closed cdp]> (CDP_REGISTRY w) /\
     outbox (snd out) = outbox w ++ [RunesBurn (owner cdp) (minted_bollar cdp);
                                    BtcRelease (btc_tx_hash cdp) (owner cdp)]) /\
  (bollar_amount < minted_bollar cdp ->
     out = (Err (InsufficientCollateral (Text "Insufficient Bollar to close CDP")), w)).
Proof.
  intros Hget Hown Hst Hburn Hrel out. subst out.
  unfold_endpoint. rewrite Hget, Hown, String.eqb_refl, Hst. simpl.
  destruct (Z.ltb_spec bollar_amount (minted_bollar cdp)) as [Hlt | Hge].
  - simpl. repeat split; try lia; try discriminate. 
  - rewrite <- Hown, Hburn. simpl. rewrite Hrel. simpl.
    repeat split; try lia.
    rewrite <- app_assoc. reflexivity.
Qed.

(** C7, amended, on the figures of the counterexample. *)
Lemma close_cdp_full_repayment_witness :
  (CDP_REGISTRY alice_world !! 1 = Some alice_position /\
   owner alice_position = caller alice_calls /\
   status alice_position = Active /\
   runes_burn_bollar alice_calls (owner alice_position) (minted_bollar alice_position)
   = Ok "burn-tx" /\
   release_btc_collateral alice_calls (btc_tx_hash alice_position) (owner alice_position)
   = Ok "release-tx") /\
  (is_ok (fst (close_cdp alice_calls 1 5000000000000 alice_world)) = true
   <-> 5000000000000 >= minted_bollar alice_position).
Proof.
  assert (Hget : CDP_REGISTRY alice_world !! 1 = Some alice_position)
    by (vm_compute; reflexivity).
  split; [repeat split; try reflexivity; exact Hget |].
  apply (close_cdp_full_repayment alice_calls alice_world 1 5000000000000
           alice_position "burn-tx" "release-tx");
    solve [exact Hget | reflexivity].
Defined.

(** *** Minting *)

(** What [mint_bollar] decides on: for a position of the caller, whatever its
    status and its debt, with the token mint going through, the request
    passes exactly when it is within the bound computed from the collateral
    and the price alone. *)
Lemma mint_bollar_decision (scale : Z) (E : Env) (w : World) (cdp_id amount_cents : Z)
      (cdp : CDP) (tx : string) :
  CDP_REGISTRY w !! cdp_id = Some cdp ->
  owner cdp = caller E ->
  runes_mint_bollar E (owner cdp) amount_cents = Ok tx ->
  is_ok (fst (mint_bollar scale E cdp_id amount_cents w)) = true
  <-> amount_cents
      <= RatioCalculator.max_mintable scale (collateral_amount cdp) 0
           (btc_price (price_cache w)) (max_collateral_ratio (SYSTEM_CONFIG w)).
Proof.
  intros Hget Hown Hmint. unfold_endpoint.
  rewrite Hget, Hown, String.eqb_refl. simpl.
  match goal with |- context [?b <? amount_cents] =>
    destruct (Z.ltb_spec b amount_cents) as [Hlt | Hle] end.
  - simpl. split; [discriminate | lia].
  - rewrite <- Hown, Hmint. simpl. split; [intros _; exact Hle | reflexivity].
Qed.

(** On a position without debt the bound of [mint_bollar] is the
    specification's [max_mintable]. *)
Corollary mint_bollar_decision_without_debt (scale : Z) (E : Env) (w : World)
          (cdp_id amount_cents : Z) (cdp : CDP) (tx : string) :
  CDP_REGISTRY w !! cdp_id = Some cdp ->
  owner cdp = caller E ->
  minted_bollar cdp = 0 ->
  runes_mint_bollar E (owner cdp) amount_cents = Ok tx ->
  is_ok (fst (mint_bollar scale E cdp_id amount_cents w)) = true
  <-> amount_cents
      <= RatioCalculator.max_mintable scale (collateral_amount cdp) (minted_bollar cdp)
           (btc_price (price_cache w)) (max_collateral_ratio (SYSTEM_CONFIG w)).
Proof.
  intros Hget Hown Hdebt Hmint. rewrite Hdebt.
  exact (mint_bollar_decision scale E w cdp_id amount_cents cdp tx Hget Hown Hmint).
Qed.

(** [test_successful_bollar_minting] and [test_exceeding_max_collateral_ratio]
    of TEST_STRATEGY.md: 50,000,000 is granted and leaves a ratio of 13000;
    60,000,000 is refused. *)
Example test_bollar_minting :
  fst (mint_bollar SATOSHIS_PER_BTC alice_calls 1 50000000 test_world)
  = Ok (mkMintResult "mint-tx" 13000) /\
  fst (mint_bollar SATOSHIS_PER_BTC alice_calls 1 60000000 test_world)
  = Err (InsufficientCollateral (RequestedExceedsMax 60000000 58500000)).
Proof. vm_compute. split; reflexivity. Qed.

(** A refused mint, whatever the reason, writes nothing and calls nobody. *)
Lemma mint_bollar_error_unchanged (scale : Z) (E : Env) (w : World)
      (cdp_id amount_cents : Z) (e : ProtocolError) (w' : World) :
  mint_bollar scale E cdp_id amount_cents w = (Err e, w') -> w' = w.
Proof.
  unfold_endpoint.
  destruct (CDP_REGISTRY w !! cdp_id) as [cdp |]; [| congruence].
  destruct (negb (String.eqb (owner cdp) (caller E))); [congruence |].
  simpl.
  match goal with |- context [?b <? amount_cents] =>
    destruct (b <? amount_cents) end; [congruence |].
  destruct (runes_mint_bollar E (owner cdp) amount_cents); simpl; congruence.
Qed.

(** C1 at a failing input: alice has minted 5,000,000,000,000 against a
    collateral worth 6,500,000,000,000.  The bound of the claim leaves her
    850,000,000,000; she asks for 1,000,000,000,000 and [mint_bollar] grants
    it, bringing the debt to 6,000,000,000,000, above the 5,850,000,000,000
    that 90% of the collateral allows. *)
Theorem mint_bollar_ignores_debt :
  RatioCalculator.max_mintable 1 100000000 5000000000000 65000 9000 = 850000000000 /\
  fst (mint_bollar 1 alice_calls 1 1000000000000 alice_world)
  = Ok (mkMintResult "mint-tx" 10833) /\
  stored_debt (snd (mint_bollar 1 alice_calls 1 1000000000000 alice_world))
  = Some 6000000000000 /\
  RatioCalculator.collateral_value 1 100000000 65000 * 9000 / 10000 = 5850000000000.
Proof. vm_compute. repeat split; reflexivity. Qed.

(** C4 at a failing input: [mint_bollar] on a Closed position succeeds and
    raises its debt, and [liquidate_cdp] on a Closed position that kept its
    debt succeeds and turns Closed into Liquidated. *)
Theorem terminal_position_still_operable :
  stored_status closed_world = Some Closed /\
  is_ok (fst (mint_bollar 1 alice_calls 1 1000 closed_world)) = true /\
  stored_debt (snd (mint_bollar 1 alice_calls 1 1000 closed_world)) = Some 1000 /\
  stored_status closed_underwater_world = Some Closed /\
  is_ok (fst (liquidate_cdp 1 bob_calls 1 8000000000000 closed_underwater_world)) = true /\
  stored_status (snd (liquidate_cdp 1 bob_calls 1 8000000000000 closed_underwater_world))
  = Some Liquidated.
Proof. vm_compute. repeat split; reflexivity. Qed.

(** *** Liquidation *)

Lemma liquidation_reward_bounds (c penalty_bps : Z) :
  0 <= c -> 0 <= penalty_bps <= 10000 ->
  0 <= c * penalty_bps / 10000 <= c.
Proof.
  intros Hc Hp. split.
  - apply Z.div_pos; [apply Z.mul_nonneg_nonneg; lia | lia].
  - apply Z.div_le_upper_bound; [lia |]. nia.
Qed.

(** C2, the claim as stated, fails on who is paid what: bob liquidates
    alice's position of 100,000,000 satoshis at a penalty of 500 bps.  The
    reward is 5,000,000, and bob is sent the other 95,000,000; alice is sent
    nothing. *)
Lemma liquidator_is_sent_the_remainder :
  fst (liquidate_cdp 1 bob_calls 1 8000000000000 underwater_world)
  = Ok (mkLiquidationResult 8000000000000 95000000 5000000) /\
  btc_transferred_to "bob"
    (outbox (snd (liquidate_cdp 1 bob_calls 1 8000000000000 underwater_world)))
  = 95000000 /\
  95000000 <> snd (RatioCalculator.liquidation_split 100000000 500) /\
  btc_transferred_to "alice"
    (outbox (snd (liquidate_cdp 1 bob_calls 1 8000000000000 underwater_world)))
  = 0 /\
  0 <> fst (RatioCalculator.liquidation_split 100000000 500).
Proof. vm_compute. repeat split; congruence. Qed.

(** C2, amended: when [liquidate_cdp] goes through on a position with
    collateral [c], at a penalty of at most 10000 bps, the reward is
    [c * penalty_bps / 10000], it is what the result and the audit trail
    report, the liquidator is sent [c - reward], and the two add up to [c];
    the debt burned is burned from the liquidator. *)
Theorem liquidate_cdp_sends_collateral_less_reward
        (scale : Z) (E : Env) (w : World) (cdp_id bollar_amount : Z) (cdp : CDP)
        (balance : Z) (burn_tx transfer_tx : string) :
  let c := collateral_amount cdp in
  let reward := c * liquidation_penalty (SYSTEM_CONFIG w) / 10000 in
  CDP_REGISTRY w !! cdp_id = Some cdp ->
  RatioCalculator.is_liquidatable scale c (minted_bollar cdp)
    (btc_price (price_cache w)) (liquidation_threshold (SYSTEM_CONFIG w)) = true ->
  is_u64 c ->
  0 <= liquidation_penalty (SYSTEM_CONFIG w) <= 10000 ->
  runes_balance_of E (caller E) = Ok balance ->
  bollar_amount <= balance ->
  runes_burn_bollar E (caller E) (minted_bollar cdp) = Ok burn_tx ->
  transfer_btc_to_liquidator E (btc_tx_hash cdp) (caller E) (c - reward)
  = Ok transfer_tx ->
  fst (liquidate_cdp scale E cdp_id bollar_amount w)
  = Ok (mkLiquidationResult (minted_bollar cdp) (c - reward) reward) /\
  (c - reward) + reward = c /\
  0 <= reward <= c /\
  outbox (snd (liquidate_cdp scale E cdp_id bollar_amount w))
  = outbox w ++ [RunesBurn (caller E) (minted_bollar cdp);
                 BtcTransfer (btc_tx_hash cdp) (caller E) (c - reward)] /\
  audit_trail (snd (liquidate_cdp scale E cdp_id bollar_amount w))
  = audit_trail w ++ [AuditEvent_liquidation cdp_id (caller E) reward (time E)].
Proof.
  intros c reward Hget Helig [Hc0 Hc1] Hpen Hbal Hamount Hburn Htransfer.
  pose proof (liquidation_reward_bounds c _ Hc0 Hpen) as Hreward. fold reward in Hreward.
  assert (Hsub : wrapping_sub c reward = c - reward).
  { unfold wrapping_sub. apply Z.mod_small. lia. }
  unfold_endpoint. rewrite Hget. simpl. fold c. rewrite Helig. simpl.
  unfold RatioCalculator.liquidation_split. simpl. fold c. fold reward.
  rewrite Hbal. simpl.
  destruct (Z.ltb_spec balance bollar_amount) as [Hlt | _]; [lia |].
  rewrite Hburn. simpl. rewrite Hsub, Htransfer. simpl.
  repeat split; try lia.
  rewrite <- app_assoc. reflexivity.
Qed.

(** C2, amended, on the figures of the scenario: 500 bps on 100,000,000. *)
Lemma liquidate_cdp_sends_collateral_less_reward_witness :
  (CDP_REGISTRY underwater_world !! 1 = Some underwater_position /\
   RatioCalculator.is_liquidatable 1 100000000 8000000000000 65000 8500 = true /\
   is_u64 100000000 /\
   0 <= 500 <= 10000 /\
   runes_balance_of bob_calls "bob" = Ok 8000000000000 /\
   8000000000000 <= 8000000000000 /\
   runes_burn_bollar bob_calls "bob" 8000000000000 = Ok "burn-tx" /\
   transfer_btc_to_liquidator bob_calls "deposit-1" "bob" 95000000 = Ok "transfer-tx") /\
  fst (liquidate_cdp 1 bob_calls 1 8000000000000 underwater_world)
  = Ok (mkLiquidationResult 8000000000000 (100000000 - 5000000) 5000000).
Proof.
  assert (Hget : CDP_REGISTRY underwater_world !! 1 = Some underwater_position)
    by (vm_compute; reflexivity).
  assert (Hu : is_u64 100000000) by (unfold is_u64, U64_MODULUS; lia).
  split; [repeat split; try reflexivity; try lia; exact Hget |].
  apply (liquidate_cdp_sends_collateral_less_reward 1 bob_calls underwater_world 1
           8000000000000 underwater_position 8000000000000 "burn-tx" "transfer-tx");
    solve [exact Hget | exact Hu | reflexivity | simpl; lia].
Defined.

(** *** The two endpoints for every body of the helpers *)

Ltac unfold_any :=
  unfold AnyHelpers.mint_bollar, AnyHelpers.liquidate_cdp, AnyHelpers.bindT,
    AnyHelpers.lift, AnyHelpers.ask, ret, fail,
    registry_get, registry_insert, external, external_read, record_audit_event.

(** With the helpers of the specification the two embeddings of an endpoint
    are one. *)
Lemma any_helpers_of_the_specification (scale : Z) (E : Env) (cdp_id x : Z) (w : World) :
  AnyHelpers.mint_bollar spec_price (spec_max_mintable scale) (spec_ratio scale)
    E cdp_id x w
  = Some (mint_bollar scale E cdp_id x w) /\
  AnyHelpers.liquidate_cdp (spec_liquidatable scale) spec_reward E cdp_id x w
  = Some (liquidate_cdp scale E cdp_id x w).
Proof.
  unfold_any. unfold_endpoint.
  unfold spec_price, spec_max_mintable, spec_ratio, spec_liquidatable, spec_reward.
  split.
  - destruct (CDP_REGISTRY w !! cdp_id) as [cdp |]; [| reflexivity].
    destruct (negb (String.eqb (owner cdp) (caller E))); [reflexivity |].
    simpl.
    match goal with |- context [?b <? x] => destruct (b <? x) end; [reflexivity |].
    destruct (runes_mint_bollar E (owner cdp) x); reflexivity.
  - destruct (CDP_REGISTRY w !! cdp_id) as [cdp |]; [| reflexivity].
    simpl.
    match goal with |- context [negb ?b] => destruct b end; [| reflexivity].
    simpl.
    destruct (runes_balance_of E (caller E)) as [b |]; [| reflexivity].
    simpl. destruct (b <? x); [reflexivity |].
    destruct (runes_burn_bollar E (caller E) (minted_bollar cdp)); [| reflexivity].
    simpl.
    match goal with |- context [transfer_btc_to_liquidator E ?d ?p ?a] =>
      destruct (transfer_btc_to_liquidator E d p a) end; reflexivity.
Qed.






(** C3 at the failing input with the two bodies: on the test of the
    specification carol's liquidation goes through like bob's and she is sent
    the same collateral; on the test that looks at the status it is refused,
    with [InvalidOperation]. *)
Example liquidate_cdp_twice :
  fst (liquidate_cdp 1 carol_calls 1 8000000000000
         (snd (liquidate_cdp 1 bob_calls 1 8000000000000 underwater_world)))
  = Ok (mkLiquidationResult 8000000000000 95000000 5000000) /\
  outbox (snd (liquidate_cdp 1 carol_calls 1 8000000000000
                 (snd (liquidate_cdp 1 bob_calls 1 8000000000000 underwater_world))))
  = [RunesBurn "bob" 8000000000000; BtcTransfer "deposit-1" "bob" 95000000;
     RunesBurn "carol" 8000000000000; BtcTransfer "deposit-1" "carol" 95000000] /\
  AnyHelpers.liquidate_cdp (active_and_liquidatable 1) spec_reward
    carol_calls 1 8000000000000
    (snd (liquidate_cdp 1 bob_calls 1 8000000000000 underwater_world))
  = Some (Err (InvalidOperation (Text "CDP not eligible for liquidation")),
          snd (liquidate_cdp 1 bob_calls 1 8000000000000 underwater_world)).
Proof. vm_compute. repeat split; reflexivity. Qed.


(** C8 at the failing input with two bodies of [get_current_price]: the read
    of the stored sample lets the mint through on the stale price; a feed
    that refuses the stale sample can only trap, and the caller is told
    nothing. *)
Example stale_price_two_feeds :
  fst (mint_bollar 1 alice_calls_late 1 1000 alice_world)
  = Ok (mkMintResult "mint-tx" 12999) /\
  AnyHelpers.mint_bollar fresh_price_or_trap (spec_max_mintable 1) (spec_ratio 1)
    alice_calls_late 1 1000 alice_world = None /\
  is_ok (fst (close_cdp alice_calls_late 1 5000000000000 alice_world)) = true.
Proof. vm_compute. repeat split; reflexivity. Qed.

(** ** The query endpoints of the interface *)

(** The methods that carry [query] in the [service] block. *)
Example query_endpoints_of_the_interface :
  Candid.query_endpoints
  = ["pre_deposit"; "pre_repay"; "get_liquidatable_positions"; "pre_liquidate";
     "get_user_positions"; "get_pool_info"; "get_btc_price"; "get_protocol_metrics"].
Proof. reflexivity. Qed.

(** ** More on the endpoints: refusals, frames, sequences *)

Lemma owner_mismatch (a b : Principal) : a <> b -> String.eqb a b = false.
Proof. intros H. apply String.eqb_neq. exact H. Qed.



(** X2: a mint that passes the checks returns the token transaction and the
    ratio at the new debt, and writes exactly this: the record of the
    position with the debt raised (wrapping at 2^64) and [last_updated] set
    to the time of the call, and one token mint of the amount to the owner.
    The [collateral_ratio] stored on the record is not refreshed, the other
    positions are not touched and no audit event is recorded. *)
Theorem mint_bollar_success (scale : Z) (E : Env) (w : World)
        (cdp_id amount_cents : Z) (cdp : CDP) (tx : string) :
  CDP_REGISTRY w !! cdp_id = Some cdp ->
  owner cdp = caller E ->
  amount_cents
  <= RatioCalculator.max_mintable scale (collateral_amount cdp) 0
       (btc_price (price_cache w)) (max_collateral_ratio (SYSTEM_CONFIG w)) ->
  runes_mint_bollar E (owner cdp) amount_cents = Ok tx ->
  let debt := wrapping_add (minted_bollar cdp) amount_cents in
  let record := set_last_updated (time E) (set_minted_bollar debt cdp) in
  let out := mint_bollar scale E cdp_id amount_cents w in
  fst out
  = Ok (mkMintResult tx
          (RatioCalculator.collateral_ratio_bps scale (collateral_amount cdp) debt
             (btc_price (price_cache w)))) /\
  CDP_REGISTRY (snd out) = <[cdp_id := record]> (CDP_REGISTRY w) /\
  collateral_ratio record = collateral_ratio cdp /\
  (0 <= minted_bollar cdp -> 0 <= amount_cents ->
   minted_bollar cdp + amount_cents < U64_MODULUS ->
   minted_bollar record = minted_bollar cdp + amount_cents) /\
  outbox (snd out) = outbox w ++ [RunesMint (owner cdp) amount_cents] /\
  audit_trail (snd out) = audit_trail w.
Proof.
  intros Hget Hown Hle Hmint debt record out. subst out.
  unfold_endpoint. rewrite Hget, Hown, String.eqb_refl. simpl.
  match goal with |- context [?b <? amount_cents] =>
    destruct (Z.ltb_spec b amount_cents) as [Hlt | _] end; [lia |].
  rewrite <- Hown, Hmint. simpl.
  repeat split; try reflexivity.
  intros Hd Ha Hsum. subst debt. unfold wrapping_add.
  apply Z.mod_small. lia.
Qed.

Lemma mint_bollar_success_witness :
  (CDP_REGISTRY alice_world !! 1 = Some alice_position /\
   owner alice_position = caller alice_calls /\
   1000 <= RatioCalculator.max_mintable 1 (collateral_amount alice_position) 0
             (btc_price (price_cache alice_world))
             (max_collateral_ratio (SYSTEM_CONFIG alice_world)) /\
   runes_mint_bollar alice_calls (owner alice_position) 1000 = Ok "mint-tx") /\
  outbox (snd (mint_bollar 1 alice_calls 1 1000 alice_world))
  = outbox alice_world ++ [RunesMint (owner alice_position) 1000].
Proof.
  assert (Hget : CDP_REGISTRY alice_world !! 1 = Some alice_position)
    by (vm_compute; reflexivity).
  assert (Hle : 1000 <= RatioCalculator.max_mintable 1 (collateral_amount alice_position) 0
             (btc_price (price_cache alice_world))
             (max_collateral_ratio (SYSTEM_CONFIG alice_world)))
    by (vm_compute; congruence).
  split; [repeat split; try reflexivity; assumption |].
  apply (mint_bollar_success 1 alice_calls alice_world 1 1000 alice_position "mint-tx"
           Hget eq_refl Hle eq_refl).
Defined.

(** X3: every way [close_cdp] refuses, in the order it checks: a missing
    position, a caller who is not the owner, a position that is not Active
    (CDPAlreadyLiquidated, for a Closed one too), a repayment below the debt,
    a token burn that fails.  Each of these leaves the whole state as it
    was. *)
Theorem close_cdp_refusals (E : Env) (w : World) (cdp_id bollar_amount : Z) :
  (CDP_REGISTRY w !! cdp_id = None ->
   close_cdp E cdp_id bollar_amount w = (Err CDPNotFound, w)) /\
  (forall cdp, CDP_REGISTRY w !! cdp_id = Some cdp -> owner cdp <> caller E ->
   close_cdp E cdp_id bollar_amount w = (Err UnauthorizedAccess, w)) /\
  (forall cdp, CDP_REGISTRY w !! cdp_id = Some cdp -> owner cdp = caller E ->
   status cdp <> Active ->
   close_cdp E cdp_id bollar_amount w = (Err CDPAlreadyLiquidated, w)) /\
  (forall cdp, CDP_REGISTRY w !! cdp_id = Some cdp -> owner cdp = caller E ->
   status cdp = Active -> bollar_amount < minted_bollar cdp ->
   close_cdp E cdp_id bollar_amount w
   = (Err (InsufficientCollateral (Text "Insufficient Bollar to close CDP")), w)) /\
  (forall cdp e, CDP_REGISTRY w !! cdp_id = Some cdp -> owner cdp = caller E ->
   status cdp = Active -> minted_bollar cdp <= bollar_amount ->
   runes_burn_bollar E (owner cdp) (minted_bollar cdp) = Err e ->
   close_cdp E cdp_id bollar_amount w = (Err e, w)).
Proof.
  repeat split.
  - intros Hget. unfold_endpoint. rewrite Hget. reflexivity.
  - intros cdp Hget Hown. unfold_endpoint.
    rewrite Hget, (owner_mismatch _ _ Hown). reflexivity.
  - intros cdp Hget Hown Hst. apply (close_cdp_terminal_rejected E w _ _ cdp); assumption.
  - intros cdp Hget Hown Hst Hlt. unfold_endpoint.
    rewrite Hget, Hown, String.eqb_refl, Hst. simpl.
    destruct (Z.ltb_spec bollar_amount (minted_bollar cdp)); [reflexivity | lia].
  - intros cdp e Hget Hown Hst Hle Hburn. unfold_endpoint.
    rewrite Hget, Hown, String.eqb_refl, Hst. simpl.
    destruct (Z.ltb_spec bollar_amount (minted_bollar cdp)); [lia |].
    rewrite <- Hown, Hburn. reflexivity.
Qed.

(** X3 on alice offering one unit less than her debt. *)
Lemma close_cdp_refusals_witness :
  (CDP_REGISTRY alice_world !! 1 = Some alice_position /\
   owner alice_position = caller alice_calls /\
   status alice_position = Active /\
   4999999999999 < minted_bollar alice_position) /\
  close_cdp alice_calls 1 4999999999999 alice_world
  = (Err (InsufficientCollateral (Text "Insufficient Bollar to close CDP")), alice_world).
Proof.
  assert (Hget : CDP_REGISTRY alice_world !! 1 = Some alice_position)
    by (vm_compute; reflexivity).
  assert (Hlt : 4999999999999 < minted_bollar alice_position) by (simpl; lia).
  split; [repeat split; try reflexivity; assumption |].
  exact (proj1 (proj2 (proj2 (proj2 (close_cdp_refusals alice_calls alice_world 1
                                       4999999999999))))
               alice_position Hget eq_refl eq_refl Hlt).
Defined.

(** X4: when the token burn goes through and the release of the deposit
    fails, [close_cdp] returns the error of the release and does not close:
    the registry is as before, the position still Active with its debt on
    record, and the burn has been sent.  A second attempt burns the debt a
    second time before it closes. *)
Theorem close_cdp_release_failure (E E' : Env) (w : World) (cdp_id bollar_amount : Z)
        (cdp : CDP) (burn_tx burn_tx' release_tx : string) (e : ProtocolError) :
  CDP_REGISTRY w !! cdp_id = Some cdp ->
  owner cdp = caller E ->
  status cdp = Active ->
  minted_bollar cdp <= bollar_amount ->
  runes_burn_bollar E (owner cdp) (minted_bollar cdp) = Ok burn_tx ->
  release_btc_collateral E (btc_tx_hash cdp) (owner cdp) = Err e ->
  caller E' = caller E ->
  runes_burn_bollar E' (owner cdp) (minted_bollar cdp) = Ok burn_tx' ->
  release_btc_collateral E' (btc_tx_hash cdp) (owner cdp) = Ok release_tx ->
  let first := close_cdp E cdp_id bollar_amount w in
  let second := close_cdp E' cdp_id bollar_amount (snd first) in
  fst first = Err e /\
  CDP_REGISTRY (snd first) = CDP_REGISTRY w /\
  outbox (snd first) = outbox w ++ [RunesBurn (owner cdp) (minted_bollar cdp)] /\
  is_ok (fst second) = true /\
  outbox (snd second)
  = outbox w ++ [RunesBurn (owner cdp) (minted_bollar cdp);
                 RunesBurn (owner cdp) (minted_bollar cdp);
                 BtcRelease (btc_tx_hash cdp) (owner cdp)].
Proof.
  intros Hget Hown Hst Hle Hburn Hrel Hsame Hburn' Hrel' first second.
  assert (Hfirst : first = (Err e, set_outbox
                     (outbox w ++ [RunesBurn (owner cdp) (minted_bollar cdp)]) w)).
  { subst first. unfold_endpoint. rewrite Hget, Hown, String.eqb_refl, Hst. simpl.
    destruct (Z.ltb_spec bollar_amount (minted_bollar cdp)); [lia |].
    rewrite <- Hown, Hburn. simpl. rewrite Hrel. reflexivity. }
  subst second. rewrite Hfirst. simpl.
  repeat split.
  - unfold_endpoint. simpl. rewrite Hget, Hown, Hsame, String.eqb_refl, Hst. simpl.
    destruct (Z.ltb_spec bollar_amount (minted_bollar cdp)); [lia |].
    rewrite <- Hown, Hburn'. simpl. rewrite Hrel'. reflexivity.
  - unfold_endpoint. simpl. rewrite Hget, Hown, Hsame, String.eqb_refl, Hst. simpl.
    destruct (Z.ltb_spec bollar_amount (minted_bollar cdp)); [lia |].
    rewrite <- Hown, Hburn'. simpl. rewrite Hrel'. simpl.
    rewrite <- !app_assoc. reflexivity.
Qed.

Lemma close_cdp_release_failure_witness :
  (CDP_REGISTRY alice_world !! 1 = Some alice_position /\
   owner alice_position = caller (answering_but_release "alice" 10 0) /\
   status alice_position = Active /\
   minted_bollar alice_position <= 5000000000000) /\
  fst (close_cdp (answering_but_release "alice" 10 0) 1 5000000000000 alice_world)
  = Err refusal.
Proof.
  assert (Hget : CDP_REGISTRY alice_world !! 1 = Some alice_position)
    by (vm_compute; reflexivity).
  assert (Hle : minted_bollar alice_position <= 5000000000000) by (simpl; lia).
  split; [repeat split; try reflexivity; assumption |].
  apply (close_cdp_release_failure (answering_but_release "alice" 10 0) alice_calls
           alice_world 1 5000000000000 alice_position "burn-tx" "burn-tx" "release-tx"
           refusal Hget eq_refl eq_refl Hle eq_refl eq_refl eq_refl eq_refl eq_refl).
Defined.

(** X5: a position is closed once.  After a [close_cdp] that succeeded, every
    further [close_cdp] of that position, by anyone and with any amount, is
    refused and changes nothing; to the owner the refusal is
    CDPAlreadyLiquidated. *)
Theorem close_cdp_only_once (E E' : Env) (w : World) (cdp_id bollar_amount amount' : Z)
        (r : CloseResult) :
  fst (close_cdp E cdp_id bollar_amount w) = Ok r ->
  let w1 := snd (close_cdp E cdp_id bollar_amount w) in
  snd (close_cdp E' cdp_id amount' w1) = w1 /\
  is_ok (fst (close_cdp E' cdp_id amount' w1)) = false /\
  (caller E' = caller E ->
   fst (close_cdp E' cdp_id amount' w1) = Err CDPAlreadyLiquidated).
Proof.
  unfold_endpoint.
  destruct (CDP_REGISTRY w !! cdp_id) as [cdp |] eqn:Hget; [| discriminate].
  destruct (String.eqb (owner cdp) (caller E)) eqn:Hown; [| discriminate].
  simpl.
  destruct (CDPStatus_eqb (status cdp) Active); [| discriminate].
  simpl.
  destruct (bollar_amount <? minted_bollar cdp); [discriminate |].
  destruct (runes_burn_bollar E (owner cdp) (minted_bollar cdp)); [| discriminate].
  simpl.
  destruct (release_btc_collateral E (btc_tx_hash cdp) (owner cdp)); [| discriminate].
  simpl. intros _.
  rewrite lookup_insert_eq. simpl.
  destruct (String.eqb (owner cdp) (caller E')) eqn:Hown'; simpl.
  - repeat split; reflexivity.
  - repeat split; try reflexivity.
    intros Hsame. rewrite Hsame, Hown in Hown'. discriminate.
Qed.

Lemma close_cdp_only_once_witness :
  fst (close_cdp alice_calls 1 5000000000000 alice_world)
  = Ok (mkCloseResult "release-tx" "burn-tx" 100000000) /\
  fst (close_cdp alice_calls 1 5000000000000
         (snd (close_cdp alice_calls 1 5000000000000 alice_world)))
  = Err CDPAlreadyLiquidated.
Proof.
  assert (H : fst (close_cdp alice_calls 1 5000000000000 alice_world)
              = Ok (mkCloseResult "release-tx" "burn-tx" 100000000))
    by (vm_compute; reflexivity).
  split; [exact H |].
  apply (close_cdp_only_once alice_calls alice_calls alice_world 1 5000000000000
           5000000000000 _ H). reflexivity.
Defined.

(** X6: every way [liquidate_cdp] refuses before it sends anything, in the
    order it checks: a missing position, a position that is not eligible
    (InvalidOperation, before the balance is asked for), a balance that
    cannot be read, a balance below [bollar_amount].  Each of these leaves
    the whole state as it was. *)
Theorem liquidate_cdp_refusals (scale : Z) (E : Env) (w : World)
        (cdp_id bollar_amount : Z) :
  let eligible (cdp : CDP) :=
    RatioCalculator.is_liquidatable scale (collateral_amount cdp) (minted_bollar cdp)
      (btc_price (price_cache w)) (liquidation_threshold (SYSTEM_CONFIG w)) in
  (CDP_REGISTRY w !! cdp_id = None ->
   liquidate_cdp scale E cdp_id bollar_amount w = (Err CDPNotFound, w)) /\
  (forall cdp, CDP_REGISTRY w !! cdp_id = Some cdp -> eligible cdp = false ->
   liquidate_cdp scale E cdp_id bollar_amount w
   = (Err (InvalidOperation (Text "CDP not eligible for liquidation")), w)) /\
  (forall cdp e, CDP_REGISTRY w !! cdp_id = Some cdp -> eligible cdp = true ->
   runes_balance_of E (caller E) = Err e ->
   liquidate_cdp scale E cdp_id bollar_amount w = (Err e, w)) /\
  (forall cdp balance, CDP_REGISTRY w !! cdp_id = Some cdp -> eligible cdp = true ->
   runes_balance_of E (caller E) = Ok balance -> balance < bollar_amount ->
   liquidate_cdp scale E cdp_id bollar_amount w
   = (Err (InsufficientCollateral (Text "Insufficient Bollar for liquidation")), w)).
Proof.
  intros eligible. repeat split.
  - intros Hget. unfold_endpoint. rewrite Hget. reflexivity.
  - intros cdp Hget Hel. unfold_endpoint. rewrite Hget. simpl.
    fold (eligible cdp). rewrite Hel. reflexivity.
  - intros cdp e Hget Hel Hbal. unfold_endpoint. rewrite Hget. simpl.
    fold (eligible cdp). rewrite Hel. simpl. rewrite Hbal. reflexivity.
  - intros cdp balance Hget Hel Hbal Hlt. unfold_endpoint. rewrite Hget. simpl.
    fold (eligible cdp). rewrite Hel. simpl. rewrite Hbal. simpl.
    destruct (Z.ltb_spec balance bollar_amount); [reflexivity | lia].
Qed.

(** X6 on alice's healthy position: bob's liquidation is refused. *)
Lemma liquidate_cdp_refusals_witness :
  (CDP_REGISTRY alice_world !! 1 = Some alice_position /\
   RatioCalculator.is_liquidatable 1 (collateral_amount alice_position)
     (minted_bollar alice_position) (btc_price (price_cache alice_world))
     (liquidation_threshold (SYSTEM_CONFIG alice_world)) = false) /\
  liquidate_cdp 1 bob_calls 1 5000000000000 alice_world
  = (Err (InvalidOperation (Text "CDP not eligible for liquidation")), alice_world).
Proof.
  assert (Hget : CDP_REGISTRY alice_world !! 1 = Some alice_position)
    by (vm_compute; reflexivity).
  assert (Hel : RatioCalculator.is_liquidatable 1 (collateral_amount alice_position)
     (minted_bollar alice_position) (btc_price (price_cache alice_world))
     (liquidation_threshold (SYSTEM_CONFIG alice_world)) = false)
    by (vm_compute; reflexivity).
  split; [split; assumption |].
  exact (proj1 (proj2 (liquidate_cdp_refusals 1 bob_calls alice_world 1 5000000000000))
               alice_position Hget Hel).
Defined.

(** X7: when the burn of the liquidator's tokens goes through and the
    transfer of the collateral fails, [liquidate_cdp] returns the error of
    the transfer: the registry and the audit trail are as before, the
    position keeps its status, and the liquidator's burn has been sent. *)
Theorem liquidate_cdp_transfer_failure (scale : Z) (E : Env) (w : World)
        (cdp_id bollar_amount : Z) (cdp : CDP) (balance : Z) (burn_tx : string)
        (e : ProtocolError) :
  CDP_REGISTRY w !! cdp_id = Some cdp ->
  RatioCalculator.is_liquidatable scale (collateral_amount cdp) (minted_bollar cdp)
    (btc_price (price_cache w)) (liquidation_threshold (SYSTEM_CONFIG w)) = true ->
  runes_balance_of E (caller E) = Ok balance ->
  bollar_amount <= balance ->
  runes_burn_bollar E (caller E) (minted_bollar cdp) = Ok burn_tx ->
  (forall sats, transfer_btc_to_liquidator E (btc_tx_hash cdp) (caller E) sats = Err e) ->
  let out := liquidate_cdp scale E cdp_id bollar_amount w in
  fst out = Err e /\
  CDP_REGISTRY (snd out) = CDP_REGISTRY w /\
  audit_trail (snd out) = audit_trail w /\
  outbox (snd out) = outbox w ++ [RunesBurn (caller E) (minted_bollar cdp)].
Proof.
  intros Hget Hel Hbal Hle Hburn Htransfer out. subst out.
  unfold_endpoint. rewrite Hget. simpl. rewrite Hel. simpl. rewrite Hbal. simpl.
  destruct (Z.ltb_spec balance bollar_amount); [lia |].
  rewrite Hburn. simpl. rewrite Htransfer. simpl. repeat split; reflexivity.
Qed.

Lemma liquidate_cdp_transfer_failure_witness :
  (CDP_REGISTRY underwater_world !! 1 = Some underwater_position /\
   8000000000000 <= 8000000000000) /\
  fst (liquidate_cdp 1 (answering_but_transfer "bob" 10 8000000000000) 1
         8000000000000 underwater_world) = Err refusal.
Proof.
  assert (Hget : CDP_REGISTRY underwater_world !! 1 = Some underwater_position)
    by (vm_compute; reflexivity).
  split; [split; [exact Hget | lia] |].
  apply (liquidate_cdp_transfer_failure 1 (answering_but_transfer "bob" 10 8000000000000)
           underwater_world 1 8000000000000 underwater_position 8000000000000
           "burn-tx" refusal Hget);
    solve [reflexivity | lia | intros; reflexivity].
Defined.

(** X8: [bollar_amount] only has to be within the liquidator's balance; what
    is burned and what is paid out does not depend on it.  Two calls that
    differ in the amount offered, both within the balance, have the same
    outcome: an offer of zero liquidates as well as an offer of the whole
    debt. *)
Theorem liquidate_cdp_ignores_offer (scale : Z) (E : Env) (w : World)
        (cdp_id offer offer' balance : Z) :
  runes_balance_of E (caller E) = Ok balance ->
  offer <= balance -> offer' <= balance ->
  liquidate_cdp scale E cdp_id offer w = liquidate_cdp scale E cdp_id offer' w.
Proof.
  intros Hbal Hle Hle'. unfold_endpoint.
  destruct (CDP_REGISTRY w !! cdp_id) as [cdp |]; [| reflexivity].
  simpl.
  match goal with |- context [negb ?b] => destruct b end; [| reflexivity].
  simpl. rewrite Hbal. simpl.
  destruct (Z.ltb_spec balance offer); [lia |].
  destruct (Z.ltb_spec balance offer'); [lia |].
  reflexivity.
Qed.

Lemma liquidate_cdp_ignores_offer_witness :
  (runes_balance_of bob_calls (caller bob_calls) = Ok 8000000000000 /\
   0 <= 8000000000000 /\ 8000000000000 <= 8000000000000) /\
  liquidate_cdp 1 bob_calls 1 0 underwater_world
  = liquidate_cdp 1 bob_calls 1 8000000000000 underwater_world.
Proof.
  split; [repeat split; try reflexivity; lia |].
  apply (liquidate_cdp_ignores_offer 1 bob_calls underwater_world 1 0 8000000000000
           8000000000000); [reflexivity | lia | lia].
Defined.

Lemma same_position_refl (c : CDP) : same_position c c.
Proof. unfold same_position. repeat split; reflexivity. Qed.

(** What a call can do to the registry: nothing, or replace the record of
    its position by a record of the same position whose status is the old
    one, Closed or Liquidated. *)
Lemma state_after_registry (scale : Z) (E : Env) (cdp_id : Z) (c : Call) (w : World) :
  CDP_REGISTRY (state_after scale E cdp_id c w) = CDP_REGISTRY w \/
  exists cdp cdp',
    CDP_REGISTRY w !! cdp_id = Some cdp /\
    CDP_REGISTRY (state_after scale E cdp_id c w) = <[cdp_id := cdp']> (CDP_REGISTRY w) /\
    same_position cdp cdp' /\
    (status cdp' = status cdp \/ status cdp' = Closed \/ status cdp' = Liquidated).
Proof.
  destruct c as [a | a | a]; unfold state_after; unfold_endpoint;
    destruct (CDP_REGISTRY w !! cdp_id) as [cdp |] eqn:Hget; simpl; auto.
  - destruct (negb (String.eqb (owner cdp) (caller E))); simpl; auto.
    match goal with |- context [?b <? a] => destruct (b <? a) end; simpl; auto.
    destruct (runes_mint_bollar E (owner cdp) a); simpl; auto.
    right. eexists; eexists. split; [reflexivity |]. split; [reflexivity |].
    split; [unfold same_position; repeat split; reflexivity | left; reflexivity].
  - destruct (negb (String.eqb (owner cdp) (caller E))); simpl; auto.
    destruct (negb (CDPStatus_eqb (status cdp) Active)); simpl; auto.
    destruct (a <? minted_bollar cdp); simpl; auto.
    destruct (runes_burn_bollar E (owner cdp) (minted_bollar cdp)); simpl; auto.
    destruct (release_btc_collateral E (btc_tx_hash cdp) (owner cdp)); simpl; auto.
    right. eexists; eexists. split; [reflexivity |]. split; [reflexivity |].
    split; [unfold same_position; repeat split; reflexivity | right; left; reflexivity].
  - match goal with |- context [negb ?b] => destruct b end; simpl; auto.
    destruct (runes_balance_of E (caller E)) as [balance |]; simpl; auto.
    destruct (balance <? a); simpl; auto.
    destruct (runes_burn_bollar E (caller E) (minted_bollar cdp)); simpl; auto.
    match goal with |- context [transfer_btc_to_liquidator E ?d ?p ?x] =>
      destruct (transfer_btc_to_liquidator E d p x) end; simpl; auto.
    right. eexists; eexists. split; [reflexivity |]. split; [reflexivity |].
    split; [unfold same_position; repeat split; reflexivity | right; right; reflexivity].
Qed.

(** X9: no call of [mint_bollar], [close_cdp] or [liquidate_cdp], whatever
    its arguments, caller and outcome, adds or removes a position, touches a
    position other than its own, or changes the owner, the deposit, the
    collateral amount, the stored ratio, the liquidation price or the
    creation time of its own. *)
Theorem endpoints_keep_positions (scale : Z) (E : Env) (cdp_id : Z) (c : Call)
        (w : World) (k : Z) :
  dom (CDP_REGISTRY (state_after scale E cdp_id c w)) = dom (CDP_REGISTRY w) /\
  (k <> cdp_id ->
   CDP_REGISTRY (state_after scale E cdp_id c w) !! k = CDP_REGISTRY w !! k) /\
  (forall cdp', CDP_REGISTRY (state_after scale E cdp_id c w) !! k = Some cdp' ->
   exists cdp, CDP_REGISTRY w !! k = Some cdp /\ same_position cdp cdp').
Proof.
  destruct (state_after_registry scale E cdp_id c w)
    as [-> | (cdp & cdp' & Hget & -> & Hsame & _)].
  - repeat split; try reflexivity.
    intros cdp' H. exists cdp'. split; [exact H | apply same_position_refl].
  - split; [apply dom_insert_lookup_L; rewrite Hget; eauto |].
    split; [intros Hne; apply lookup_insert_ne; congruence |].
    intros c' H. destruct (decide (cdp_id = k)) as [<- | Hne].
    + rewrite lookup_insert_eq in H. inversion H; subst. exists cdp. split; assumption.
    + rewrite lookup_insert_ne in H by assumption.
      exists c'. split; [exact H | apply same_position_refl].
Qed.

(** X9 on alice's mint: the position keeps its collateral. *)
Lemma endpoints_keep_positions_witness :
  CDP_REGISTRY (state_after 1 alice_calls 1 (CallMint 1000) alice_world) !! 1
  = Some (set_last_updated 10 (set_minted_bollar 5000000001000 alice_position)) /\
  exists cdp, CDP_REGISTRY alice_world !! 1 = Some cdp /\
              same_position cdp
                (set_last_updated 10 (set_minted_bollar 5000000001000 alice_position)).
Proof.
  assert (H : CDP_REGISTRY (state_after 1 alice_calls 1 (CallMint 1000) alice_world) !! 1
              = Some (set_last_updated 10 (set_minted_bollar 5000000001000 alice_position)))
    by (vm_compute; reflexivity).
  split; [exact H |].
  exact (proj2 (proj2 (endpoints_keep_positions 1 alice_calls 1 (CallMint 1000)
                         alice_world 1)) _ H).
Defined.

(** X10: no call of [mint_bollar], [close_cdp] or [liquidate_cdp] makes a
    position Active: a position that is Closed or Liquidated before the call
    is Closed or Liquidated after it, whatever the call. *)
Theorem endpoints_never_reactivate (scale : Z) (E : Env) (cdp_id : Z) (c : Call)
        (w : World) (k : Z) (cdp cdp' : CDP) :
  CDP_REGISTRY w !! k = Some cdp ->
  CDP_REGISTRY (state_after scale E cdp_id c w) !! k = Some cdp' ->
  status cdp <> Active ->
  status cdp' <> Active.
Proof.
  intros Hbefore Hafter Hst.
  destruct (state_after_registry scale E cdp_id c w)
    as [Heq | (c0 & c1 & Hget & Heq & _ & Hstatus)]; rewrite Heq in Hafter.
  - congruence.
  - destruct (decide (cdp_id = k)) as [<- | Hne].
    + rewrite lookup_insert_eq in Hafter. inversion Hafter; subst.
      assert (c0 = cdp) by congruence. subst c0.
      destruct Hstatus as [H | [H | H]]; rewrite H; congruence.
    + rewrite lookup_insert_ne in Hafter by assumption. congruence.
Qed.

(** X10 on a mint against the closed position: it goes through and the
    position stays Closed. *)
Lemma endpoints_never_reactivate_witness :
  (CDP_REGISTRY closed_world !! 1 = Some closed_position /\
   CDP_REGISTRY (state_after 1 alice_calls 1 (CallMint 1000) closed_world) !! 1
   = Some (set_last_updated 10 (set_minted_bollar 1000 closed_position)) /\
   status closed_position <> Active) /\
  status (set_last_updated 10 (set_minted_bollar 1000 closed_position)) <> Active.
Proof.
  assert (H0 : CDP_REGISTRY closed_world !! 1 = Some closed_position)
    by (vm_compute; reflexivity).
  assert (H1 : CDP_REGISTRY (state_after 1 alice_calls 1 (CallMint 1000) closed_world) !! 1
               = Some (set_last_updated 10 (set_minted_bollar 1000 closed_position)))
    by (vm_compute; reflexivity).
  assert (H2 : status closed_position <> Active) by (simpl; congruence).
  split; [repeat split; assumption |].
  exact (endpoints_never_reactivate 1 alice_calls 1 (CallMint 1000) closed_world 1
           _ _ H0 H1 H2).
Defined.

(** X11: mint, then close.  After a mint of [amount_cents] on an Active
    position with debt [d] (no overflow), the owner's [close_cdp] succeeds
    exactly when the repayment covers [d + amount_cents], and what the two
    calls send is the mint of the amount, the burn of the whole debt and the
    release of the deposit, in this order. *)
Theorem mint_then_close (scale : Z) (E E' : Env) (w : World)
        (cdp_id amount_cents bollar_amount : Z) (cdp : CDP)
        (mint_tx burn_tx release_tx : string) :
  CDP_REGISTRY w !! cdp_id = Some cdp ->
  owner cdp = caller E -> caller E' = caller E ->
  status cdp = Active ->
  0 <= minted_bollar cdp -> 0 <= amount_cents ->
  minted_bollar cdp + amount_cents < U64_MODULUS ->
  amount_cents
  <= RatioCalculator.max_mintable scale (collateral_amount cdp) 0
       (btc_price (price_cache w)) (max_collateral_ratio (SYSTEM_CONFIG w)) ->
  runes_mint_bollar E (owner cdp) amount_cents = Ok mint_tx ->
  runes_burn_bollar E' (owner cdp) (minted_bollar cdp + amount_cents) = Ok burn_tx ->
  release_btc_collateral E' (btc_tx_hash cdp) (owner cdp) = Ok release_tx ->
  let w1 := snd (mint_bollar scale E cdp_id amount_cents w) in
  let out := close_cdp E' cdp_id bollar_amount w1 in
  (is_ok (fst out) = true <-> minted_bollar cdp + amount_cents <= bollar_amount) /\
  (minted_bollar cdp + amount_cents <= bollar_amount ->
   fst out = Ok (mkCloseResult release_tx burn_tx (collateral_amount cdp)) /\
   outbox (snd out)
   = outbox w ++ [RunesMint (owner cdp) amount_cents;
                  RunesBurn (owner cdp) (minted_bollar cdp + amount_cents);
                  BtcRelease (btc_tx_hash cdp) (owner cdp)]).
Proof.
  intros Hget Hown Hsame Hst Hd Ha Hsum Hle Hmint Hburn Hrel w1 out.
  assert (Hwrap : wrapping_add (minted_bollar cdp) amount_cents
                  = minted_bollar cdp + amount_cents).
  { unfold wrapping_add. apply Z.mod_small. lia. }
  assert (Hw1 : w1 = set_registry
            (<[cdp_id := set_last_updated (time E)
                           (set_minted_bollar (minted_bollar cdp + amount_cents) cdp)]>
               (CDP_REGISTRY w))
            (set_outbox (outbox w ++ [RunesMint (owner cdp) amount_cents]) w)).
  { subst w1. unfold_endpoint. rewrite Hget, Hown, String.eqb_refl. simpl.
    match goal with |- context [?b <? amount_cents] =>
      destruct (Z.ltb_spec b amount_cents) as [Hlt | _] end; [lia |].
    rewrite <- Hown, Hmint. simpl. rewrite Hwrap. reflexivity. }
  subst out. rewrite Hw1. unfold_endpoint. simpl.
  rewrite lookup_insert_eq. simpl. rewrite Hown, Hsame, String.eqb_refl, Hst. simpl.
  destruct (Z.ltb_spec bollar_amount (minted_bollar cdp + amount_cents)) as [Hlt | Hge].
  - simpl. split; [split; [discriminate | lia] | lia].
  - rewrite <- Hown, Hburn. simpl. rewrite Hrel. simpl.
    split; [split; [lia | reflexivity] |].
    intros _. split; [reflexivity |]. rewrite <- !app_assoc. reflexivity.
Qed.

Lemma mint_then_close_witness :
  (CDP_REGISTRY alice_world !! 1 = Some alice_position /\
   owner alice_position = caller alice_calls /\
   status alice_position = Active /\
   minted_bollar alice_position + 1000 < U64_MODULUS) /\
  (is_ok (fst (close_cdp alice_calls 1 5000000000000
                 (snd (mint_bollar 1 alice_calls 1 1000 alice_world)))) = true
   <-> minted_bollar alice_position + 1000 <= 5000000000000).
Proof.
  assert (Hget : CDP_REGISTRY alice_world !! 1 = Some alice_position)
    by (vm_compute; reflexivity).
  assert (Hsum : minted_bollar alice_position + 1000 < U64_MODULUS)
    by (vm_compute; reflexivity).
  assert (Hle : 1000 <= RatioCalculator.max_mintable 1 (collateral_amount alice_position) 0
             (btc_price (price_cache alice_world))
             (max_collateral_ratio (SYSTEM_CONFIG alice_world)))
    by (vm_compute; congruence).
  split; [repeat split; try reflexivity; assumption |].
  apply (mint_then_close 1 alice_calls alice_calls alice_world 1 1000 5000000000000
           alice_position "mint-tx" "burn-tx" "release-tx" Hget eq_refl eq_refl eq_refl
           ltac:(simpl; lia) ltac:(lia) Hsum Hle eq_refl eq_refl eq_refl).
Defined.

(** ** Validation and creation *)

(** The three outcomes of [validate_collateral_amount]. *)
Lemma validate_collateral_amount_cases (w : World) (amount : Z) :
  let lo := min_collateral_amount (SYSTEM_CONFIG w) in
  let hi := max_collateral_amount (SYSTEM_CONFIG w) in
  (lo <= amount <= hi -> validate_collateral_amount amount w = (Ok tt, w)) /\
  (amount < lo ->
   exists msg, validate_collateral_amount amount w = (Err (InvalidAmount msg), w)) /\
  (hi < amount ->
   exists msg, validate_collateral_amount amount w = (Err (InvalidAmount msg), w)).
Proof.
  intros lo hi.
  unfold validate_collateral_amount, bind, gets, fail, ret. simpl. fold lo hi.
  destruct (Z.ltb_spec amount lo); destruct (Z.ltb_spec hi amount); simpl;
    repeat split; intros; try lia; try reflexivity; eexists; reflexivity.
Qed.

(** X12: [validate_collateral_amount] accepts exactly the amounts from the
    configured minimum to the configured maximum, both included; below the
    minimum and above the maximum it refuses with InvalidAmount and the two
    figures in the text; it never writes.  The [validate_deposit_amount] of
    the second design document accepts the same amounts when its two
    constants are the configured bounds. *)
Theorem validate_collateral_amount_bounds (w : World) (amount : Z) :
  let lo := min_collateral_amount (SYSTEM_CONFIG w) in
  let hi := max_collateral_amount (SYSTEM_CONFIG w) in
  (lo <= amount <= hi -> validate_collateral_amount amount w = (Ok tt, w)) /\
  (amount < lo ->
   validate_collateral_amount amount w
   = (Err (InvalidAmount
             (Text ("Amount " +:+ show amount +:+ " below minimum "
                    +:+ show lo +:+ " satoshis"))), w)) /\
  (lo <= amount -> hi < amount ->
   validate_collateral_amount amount w
   = (Err (InvalidAmount
             (Text ("Amount " +:+ show amount +:+ " above maximum "
                    +:+ show hi +:+ " satoshis"))), w)) /\
  (is_ok (fst (validate_collateral_amount amount w)) = true
   <-> DepositValidation.validate_deposit_amount lo hi amount = None).
Proof.
  intros lo hi.
  unfold validate_collateral_amount, DepositValidation.validate_deposit_amount,
    bind, gets, fail, ret. simpl. fold lo hi.
  destruct (Z.ltb_spec amount lo); destruct (Z.ltb_spec hi amount); simpl;
    repeat split; intros; try lia; try reflexivity; try discriminate.
Qed.

(** X12 at the two ends: 100,000 satoshis and 100,000,000,000 satoshis pass. *)
Lemma validate_collateral_amount_bounds_witness :
  (min_collateral_amount (SYSTEM_CONFIG alice_world) <= 100000
   <= max_collateral_amount (SYSTEM_CONFIG alice_world)) /\
  validate_collateral_amount 100000 alice_world = (Ok tt, alice_world).
Proof.
  assert (H : min_collateral_amount (SYSTEM_CONFIG alice_world) <= 100000
              <= max_collateral_amount (SYSTEM_CONFIG alice_world)) by (simpl; lia).
  split; [exact H |].
  exact (proj1 (validate_collateral_amount_bounds alice_world 100000) H).
Defined.

(** The kinds of address [validate_btc_address] lets through. *)
Lemma validate_btc_address_accepts (parse : string -> option (option AddressType))
      (address : string) (w : World) :
  (parse address = Some (Some P2pkh) \/ parse address = Some (Some P2sh) \/
   parse address = Some (Some P2wpkh) ->
   validate_btc_address parse address w = (Ok tt, w)) /\
  (~ (parse address = Some (Some P2pkh) \/ parse address = Some (Some P2sh) \/
      parse address = Some (Some P2wpkh)) ->
   exists msg, validate_btc_address parse address w = (Err (InvalidAddress msg), w)).
Proof.
  unfold validate_btc_address, ret, fail.
  destruct (parse address) as [[[] |] |]; split; intros H;
    try reflexivity; try (eexists; reflexivity);
    try (exfalso; apply H; tauto);
    try (destruct H as [H | [H | H]]; discriminate H).
Qed.

(** X13: [create_cdp] creates nothing before its three checks have passed.
    An amount outside the configured bounds is refused with InvalidAmount
    whatever the address and the deposit; then an address that does not
    parse or is not P2PKH, P2SH or P2WPKH is refused with InvalidAddress;
    then a deposit that does not verify is refused with the verifier's
    error.  In each case the state is as before, whatever the code that
    creates the position does; and a creation that succeeded passed all
    three. *)
Theorem create_cdp_checks_first
        (parse : string -> option (option AddressType))
        (verify : string -> Z -> string -> Result unit)
        (create : Principal -> string -> Z -> Z -> M Z)
        (max_of : Z -> M Z)
        (E : Env) (params : CreateCDPParams.t) (w : World) :
  let amount := CreateCDPParams.amount_satoshis params in
  let address := CreateCDPParams.btc_address params in
  let in_bounds := min_collateral_amount (SYSTEM_CONFIG w) <= amount
                   <= max_collateral_amount (SYSTEM_CONFIG w) in
  let accepted := parse address = Some (Some P2pkh) \/ parse address = Some (Some P2sh)
                  \/ parse address = Some (Some P2wpkh) in
  let verified := verify (CreateCDPParams.btc_tx_hash params) amount address = Ok tt in
  let out := create_cdp parse verify create max_of E params w in
  (~ in_bounds -> exists msg, out = (Err (InvalidAmount msg), w)) /\
  (in_bounds -> ~ accepted -> exists msg, out = (Err (InvalidAddress msg), w)) /\
  (forall e, in_bounds -> accepted ->
     verify (CreateCDPParams.btc_tx_hash params) amount address = Err e ->
     out = (Err e, w)) /\
  (is_ok (fst out) = true -> in_bounds /\ accepted /\ verified).
Proof.
  intros amount address in_bounds accepted verified out.
  pose proof (validate_collateral_amount_cases w amount) as (Hin & Hlo & Hhi).
  pose proof (validate_btc_address_accepts parse address w) as (Hacc & Hrej).
  fold accepted in Hacc, Hrej. fold in_bounds in Hin.
  assert (Hbounds : in_bounds \/
            exists msg, validate_collateral_amount amount w = (Err (InvalidAmount msg), w)).
  { destruct (Z.lt_ge_cases amount (min_collateral_amount (SYSTEM_CONFIG w))) as [H | H].
    - right. apply Hlo. exact H.
    - destruct (Z.lt_ge_cases (max_collateral_amount (SYSTEM_CONFIG w)) amount) as [H' | H'].
      + right. apply Hhi; assumption.
      + left. unfold in_bounds. lia. }
  assert (Hdec : accepted \/ ~ accepted).
  { unfold accepted. destruct (parse address) as [[[] |] |];
      solve [left; tauto
            | right; intros [H | [H | H]]; discriminate H]. }
  assert (Hout : out
    = match validate_collateral_amount amount w with
      | (Ok _, w1) =>
          match validate_btc_address parse address w1 with
          | (Ok _, w2) =>
              match verify (CreateCDPParams.btc_tx_hash params) amount address with
              | Ok _ =>
                  bind get_current_price (fun price =>
                    bind (create (caller E) (CreateCDPParams.btc_tx_hash params)
                                 amount price) (fun cdp_id =>
                      bind (max_of amount) (fun max_mintable =>
                        ret (CDPCreationResult.mk cdp_id max_mintable)))) w2
              | Err e => (Err e, w2)
              end
          | (Err e, w2) => (Err e, w2)
          end
      | (Err e, w1) => (Err e, w1)
      end).
  { subst out. unfold create_cdp, bind, external_read. fold amount address.
    destruct (validate_collateral_amount amount w) as [[[] | e1] w1]; [| reflexivity].
    destruct (validate_btc_address parse address w1) as [[[] | e2] w2]; [| reflexivity].
    destruct (verify (CreateCDPParams.btc_tx_hash params) amount address)
      as [[] | e3]; reflexivity. }
  rewrite Hout. clear Hout.
  split; [| split; [| split]].
  - intros Hnb. destruct Hbounds as [Hb | [msg Hmsg]]; [contradiction |].
    exists msg. rewrite Hmsg. reflexivity.
  - intros Hb Hna. destruct (Hrej Hna) as [m Hm]. exists m.
    rewrite (Hin Hb), Hm. reflexivity.
  - intros e Hb Ha He. rewrite (Hin Hb), (Hacc Ha), He. reflexivity.
  - intros Hok. destruct Hbounds as [Hb | [msg Hmsg]];
      [| rewrite Hmsg in Hok; discriminate Hok].
    rewrite (Hin Hb) in Hok.
    destruct Hdec as [Ha | Hna];
      [| destruct (Hrej Hna) as [m Hm]; rewrite Hm in Hok; discriminate Hok].
    rewrite (Hacc Ha) in Hok.
    unfold verified.
    destruct (verify (CreateCDPParams.btc_tx_hash params) amount address) as [[] | e];
      [| discriminate Hok].
    split; [exact Hb | split; [exact Ha | reflexivity]].
Qed.

(** X13 on a request for 2000 bitcoin: refused before anything else is
    looked at, whatever the code behind the creation. *)
Lemma create_cdp_checks_first_witness :
  ~ (min_collateral_amount (SYSTEM_CONFIG alice_world)
     <= CreateCDPParams.amount_satoshis oversized_request
     <= max_collateral_amount (SYSTEM_CONFIG alice_world)) /\
  exists msg,
    create_cdp (fun _ => None) (fun _ _ _ => Err refusal)
               (fun _ _ _ _ => ret 7) (fun _ => ret 0)
               alice_calls oversized_request alice_world
    = (Err (InvalidAmount msg), alice_world).
Proof.
  assert (H : ~ (min_collateral_amount (SYSTEM_CONFIG alice_world)
                 <= CreateCDPParams.amount_satoshis oversized_request
                 <= max_collateral_amount (SYSTEM_CONFIG alice_world)))
    by (simpl; lia).
  split; [exact H |].
  exact (proj1 (create_cdp_checks_first (fun _ => None) (fun _ _ _ => Err refusal)
                  (fun _ _ _ _ => ret 7) (fun _ => ret 0)
                  alice_calls oversized_request alice_world) H).
Defined.

(** ** Access control *)

(** X14: [require_cdp_owner] never writes, and it answers with the caller and
    the position exactly when the caller is not the anonymous principal, the
    position exists and the caller owns it.  The anonymous principal is
    refused before the registry is looked at: for a missing position it is
    told UnauthorizedAccess, anyone else CDPNotFound. *)
Theorem require_cdp_owner_decides (E : Env) (cdp_id : Z) (w : World) :
  snd (require_cdp_owner E cdp_id w) = w /\
  (forall who cdp,
     fst (require_cdp_owner E cdp_id w) = Ok (who, cdp)
     <-> caller E <> ANONYMOUS /\ who = caller E /\
         CDP_REGISTRY w !! cdp_id = Some cdp /\ owner cdp = caller E) /\
  (caller E = ANONYMOUS ->
   fst (require_cdp_owner E cdp_id w) = Err UnauthorizedAccess) /\
  (caller E <> ANONYMOUS -> CDP_REGISTRY w !! cdp_id = None ->
   fst (require_cdp_owner E cdp_id w) = Err CDPNotFound).
Proof.
  unfold require_cdp_owner, require_authenticated, bind, ret, fail, registry_get.
  destruct (String.eqb_spec (caller E) ANONYMOUS) as [Hanon | Hauth]; simpl.
  - split; [reflexivity |]. split; [| split].
    + intros who cdp. split; [discriminate | intros (H & _); contradiction].
    + intros _. reflexivity.
    + intros H. contradiction.
  - destruct (CDP_REGISTRY w !! cdp_id) as [cdp |]; simpl.
    + destruct (String.eqb_spec (owner cdp) (caller E)) as [Hown | Hother]; simpl.
      * split; [reflexivity |]. split; [| split].
        -- intros who c. split.
           ++ intros H. inversion H; subst. repeat split; auto.
           ++ intros (_ & -> & Hc & _). inversion Hc; subst. reflexivity.
        -- intros H. contradiction.
        -- intros _ H. discriminate H.
      * split; [reflexivity |]. split; [| split].
        -- intros who c. split; [discriminate |].
           intros (_ & _ & Hc & Ho). inversion Hc; subst. contradiction.
        -- intros H. contradiction.
        -- intros _ H. discriminate H.
    + split; [reflexivity |]. split; [| split].
      * intros who c. split; [discriminate |].
        intros (_ & _ & Hc & _). discriminate Hc.
      * intros H. contradiction.
      * intros _ _. reflexivity.
Qed.

Lemma require_cdp_owner_decides_witness :
  (caller anonymous_calls = ANONYMOUS) /\
  fst (require_cdp_owner anonymous_calls 5 anonymous_world) = Err UnauthorizedAccess.
Proof.
  split; [reflexivity |].
  exact (proj1 (proj2 (proj2 (require_cdp_owner_decides anonymous_calls 5 anonymous_world)))
               eq_refl).
Defined.

(** X15: the endpoints test the owner themselves and do not ask whether the
    caller is authenticated.  For a position that the anonymous principal
    owns, [require_cdp_owner] refuses the anonymous caller, while its
    [mint_bollar] within the bound goes through. *)
Theorem anonymous_owner_passes_mint (scale : Z) (E : Env) (w : World)
        (cdp_id amount_cents : Z) (cdp : CDP) (tx : string) :
  caller E = ANONYMOUS ->
  CDP_REGISTRY w !! cdp_id = Some cdp ->
  owner cdp = ANONYMOUS ->
  amount_cents
  <= RatioCalculator.max_mintable scale (collateral_amount cdp) 0
       (btc_price (price_cache w)) (max_collateral_ratio (SYSTEM_CONFIG w)) ->
  runes_mint_bollar E (owner cdp) amount_cents = Ok tx ->
  fst (require_cdp_owner E cdp_id w) = Err UnauthorizedAccess /\
  is_ok (fst (mint_bollar scale E cdp_id amount_cents w)) = true.
Proof.
  intros Hanon Hget Hown Hle Hmint. split.
  - unfold require_cdp_owner, require_authenticated, bind, fail.
    rewrite Hanon, String.eqb_refl. reflexivity.
  - apply (mint_bollar_decision scale E w cdp_id amount_cents cdp tx Hget);
      [congruence | exact Hmint | exact Hle].
Qed.

Lemma anonymous_owner_passes_mint_witness :
  (caller anonymous_calls = ANONYMOUS /\
   CDP_REGISTRY anonymous_world !! 1 = Some (position ANONYMOUS 100000000 0 Active)) /\
  is_ok (fst (mint_bollar 1 anonymous_calls 1 1000 anonymous_world)) = true.
Proof.
  assert (Hget : CDP_REGISTRY anonymous_world !! 1
                 = Some (position ANONYMOUS 100000000 0 Active))
    by (vm_compute; reflexivity).
  split; [split; [reflexivity | exact Hget] |].
  apply (anonymous_owner_passes_mint 1 anonymous_calls anonymous_world 1 1000
           (position ANONYMOUS 100000000 0 Active) "mint-tx" eq_refl Hget eq_refl);
    [vm_compute; congruence | reflexivity].
Defined.

(** ** The validation pipeline *)

(** X16: [validate_create_cdp] runs all three checks and reports every one
    that fails, once, in the order amount, address, hash: it answers Ok
    exactly when none fails, and an error list holds the error of a check
    exactly when that check failed, so it has between one and three
    entries. *)
Theorem validate_create_cdp_reports_every_failure
        (MIN : Z) (valid_address valid_hash : string -> bool)
        (params : CreateCDPParams.t) :
  let amount := CreateCDPParams.amount_satoshis params in
  let address := CreateCDPParams.btc_address params in
  let hash := CreateCDPParams.btc_tx_hash params in
  let out := ValidationPipeline.validate_create_cdp MIN valid_address valid_hash params in
  (out = inl tt
   <-> MIN <= amount /\ valid_address address = true /\ valid_hash hash = true) /\
  (forall errors, out = inr errors ->
     (In (ValidationPipeline.AmountTooSmall amount) errors <-> amount < MIN) /\
     (In (ValidationPipeline.InvalidAddress address) errors
      <-> valid_address address = false) /\
     (In (ValidationPipeline.InvalidHash hash) errors <-> valid_hash hash = false) /\
     NoDup errors /\
     (1 <= length errors <= 3)%nat /\
     errors
     = (if amount <? MIN then [ValidationPipeline.AmountTooSmall amount] else [])
       ++ (if valid_address address then []
           else [ValidationPipeline.InvalidAddress address])
       ++ (if valid_hash hash then [] else [ValidationPipeline.InvalidHash hash])).
Proof.
  intros amount address hash out. subst out.
  unfold ValidationPipeline.validate_create_cdp, ValidationPipeline.push_if.
  fold amount address hash.
  destruct (Z.ltb_spec amount MIN) as [Hlt | Hge];
    destruct (valid_address address); destruct (valid_hash hash); simpl;
    (split;
     [ split; [intros H; try discriminate H; repeat split; try reflexivity; lia
              | intros (H1 & H2 & H3); try discriminate; try lia; reflexivity]
     | intros errors Herr; try discriminate Herr;
       inversion Herr; subst; clear Herr ]).
  all: repeat match goal with |- _ /\ _ => split end.
  all: try (simpl; lia).
  all: try reflexivity.
  all: try (split; [intros H; simpl in H; intuition (try discriminate; try lia)
                   | intros H; simpl; try discriminate H; try lia; tauto]).
  all: try (rewrite NoDup_ListNoDup; repeat constructor; simpl; intuition discriminate).
Qed.

Lemma validate_create_cdp_reports_every_failure_witness :
  ValidationPipeline.validate_create_cdp 100000 (fun _ => false) (fun _ => true)
    (CreateCDPParams.mk "deposit-1" 99999 "bc1-address")
  = inr [ValidationPipeline.AmountTooSmall 99999;
         ValidationPipeline.InvalidAddress "bc1-address"] /\
  (In (ValidationPipeline.AmountTooSmall 99999)
      [ValidationPipeline.AmountTooSmall 99999;
       ValidationPipeline.InvalidAddress "bc1-address"]
   <-> 99999 < 100000).
Proof.
  assert (H : ValidationPipeline.validate_create_cdp 100000 (fun _ => false) (fun _ => true)
                (CreateCDPParams.mk "deposit-1" 99999 "bc1-address")
              = inr [ValidationPipeline.AmountTooSmall 99999;
                     ValidationPipeline.InvalidAddress "bc1-address"])
    by reflexivity.
  split; [exact H |].
  exact (proj1 (proj2 (validate_create_cdp_reports_every_failure 100000 (fun _ => false)
                         (fun _ => true)
                         (CreateCDPParams.mk "deposit-1" 99999 "bc1-address")) _ H)).
Defined.

(** X17: the pipeline has a minimum and no maximum.  With the configured
    minimum as its constant, a request above the configured maximum with a
    valid address and hash passes [validate_create_cdp], and
    [validate_collateral_amount], the check of [create_cdp], refuses the same
    amount.  The other way round nothing is lost: an amount that
    [validate_collateral_amount] accepts is never reported as too small. *)
Theorem validate_create_cdp_has_no_maximum
        (valid_address valid_hash : string -> bool)
        (params : CreateCDPParams.t) (w : World) :
  let amount := CreateCDPParams.amount_satoshis params in
  let lo := min_collateral_amount (SYSTEM_CONFIG w) in
  let hi := max_collateral_amount (SYSTEM_CONFIG w) in
  let pipeline := ValidationPipeline.validate_create_cdp lo valid_address valid_hash params in
  (lo <= amount -> hi < amount ->
   valid_address (CreateCDPParams.btc_address params) = true ->
   valid_hash (CreateCDPParams.btc_tx_hash params) = true ->
   pipeline = inl tt /\
   is_ok (fst (validate_collateral_amount amount w)) = false) /\
  (is_ok (fst (validate_collateral_amount amount w)) = true ->
   forall errors, pipeline = inr errors ->
     ~ In (ValidationPipeline.AmountTooSmall amount) errors).
Proof.
  intros amount lo hi pipeline. subst pipeline.
  unfold ValidationPipeline.validate_create_cdp, ValidationPipeline.push_if.
  fold amount.
  unfold validate_collateral_amount, bind, gets, fail, ret. simpl. fold lo hi.
  split.
  - intros Hlo Hhi -> ->. simpl.
    destruct (Z.ltb_spec amount lo); [lia |].
    destruct (Z.ltb_spec hi amount); [| lia].
    split; reflexivity.
  - destruct (Z.ltb_spec amount lo) as [Hlt | Hge]; [discriminate |].
    intros _ errors Herr.
    destruct (valid_address (CreateCDPParams.btc_address params));
      destruct (valid_hash (CreateCDPParams.btc_tx_hash params));
      simpl in Herr; try discriminate Herr; inversion Herr; subst;
      simpl; intuition discriminate.
Qed.

(** X17 on the request for 2000 bitcoin. *)
Lemma validate_create_cdp_has_no_maximum_witness :
  (min_collateral_amount (SYSTEM_CONFIG alice_world)
   <= CreateCDPParams.amount_satoshis oversized_request /\
   max_collateral_amount (SYSTEM_CONFIG alice_world)
   < CreateCDPParams.amount_satoshis oversized_request) /\
  ValidationPipeline.validate_create_cdp
    (min_collateral_amount (SYSTEM_CONFIG alice_world))
    (fun _ => true) (fun _ => true) oversized_request = inl tt /\
  is_ok (fst (validate_collateral_amount
                (CreateCDPParams.amount_satoshis oversized_request) alice_world)) = false.
Proof.
  assert (H1 : min_collateral_amount (SYSTEM_CONFIG alice_world)
               <= CreateCDPParams.amount_satoshis oversized_request) by (simpl; lia).
  assert (H2 : max_collateral_amount (SYSTEM_CONFIG alice_world)
               < CreateCDPParams.amount_satoshis oversized_request) by (simpl; lia).
  split; [split; assumption |].
  exact (proj1 (validate_create_cdp_has_no_maximum (fun _ => true) (fun _ => true)
                  oversized_request alice_world) H1 H2 eq_refl eq_refl).
Defined.

(** ** Compaction and sharding *)

(** X18: [CompactCDP::from_cdp] keeps the stored ratio, a [u32] of basis
    points, in sixteen bits.  The compact ratio is the stored one modulo
    65536: it is the stored ratio exactly when that is below 65536 basis
    points (655.36%), and from there on it is a smaller figure, so that the
    compact record understates the collateralisation. *)
Theorem from_cdp_ratio_fits
        (compress : Principal -> list Z) (pack : CDPStatus -> Z) (cdp : CDP) :
  0 <= collateral_ratio cdp < 2 ^ 32 ->
  let compact := from_cdp compress pack cdp in
  0 <= CompactCDP.ratio compact < 65536 /\
  (CompactCDP.ratio compact - collateral_ratio cdp) mod 65536 = 0 /\
  (CompactCDP.ratio compact = collateral_ratio cdp <-> collateral_ratio cdp < 65536) /\
  (65536 <= collateral_ratio cdp -> CompactCDP.ratio compact < collateral_ratio cdp).
Proof.
  intros [Hlo _] compact. subst compact. unfold from_cdp. simpl.
  unfold as_u16. change (2 ^ 16) with 65536.
  pose proof (Z.mod_pos_bound (collateral_ratio cdp) 65536 ltac:(lia)) as Hbound.
  split; [exact Hbound |]. split; [| split].
  - rewrite Zminus_mod_idemp_l. rewrite Z.sub_diag. reflexivity.
  - split.
    + intros Heq. rewrite <- Heq. apply Hbound.
    + intros Hlt. apply Z.mod_small. lia.
  - intros Hge. lia.
Qed.

(** X18 on a position stored at 70000 basis points (700%): the compact
    record shows less, 4464. *)
Lemma from_cdp_ratio_fits_witness :
  (0 <= 70000 < 2 ^ 32 /\ 65536 <= 70000) /\
  CompactCDP.ratio
    (from_cdp (fun _ => []) (fun _ => 0)
       (mkCDP 1 "alice" "deposit-1" 100000000 50000000 70000 0 0 0 Active 1))
  < 70000.
Proof.
  split; [lia |].
  apply (from_cdp_ratio_fits (fun _ => []) (fun _ => 0)
           (mkCDP 1 "alice" "deposit-1" 100000000 50000000 70000 0 0 0 Active 1));
    simpl; lia.
Defined.

(** X19: a compact record cannot be turned back into its position.  Whatever
    the two packing functions are, no function recovers every [CDP] from its
    [CompactCDP]: the deposit that [close_cdp] releases, the liquidation
    price and the timestamps are not in it. *)
Theorem from_cdp_has_no_inverse
        (compress : Principal -> list Z) (pack : CDPStatus -> Z)
        (decode : CompactCDP.t -> CDP) :
  exists cdp, decode (from_cdp compress pack cdp) <> cdp.
Proof.
  set (a := mkCDP 1 "alice" "deposit-1" 100000000 0 10000 0 0 0 Active 1).
  set (b := mkCDP 1 "alice" "deposit-2" 100000000 0 10000 0 0 0 Active 1).
  assert (Hsame : from_cdp compress pack a = from_cdp compress pack b) by reflexivity.
  destruct (decide (btc_tx_hash (decode (from_cdp compress pack a)) = "deposit-1"))
    as [Heq | Hne].
  - exists b. rewrite <- Hsame. intros H. rewrite H in Heq. discriminate Heq.
  - exists a. intros H. rewrite H in Hne. apply Hne. reflexivity.
Qed.

(** X20: [get_shard_for_user] answers with a shard below [shard_count]
    whenever there is at least one shard, and panics when there is none.
    [rebalance_shards] does not change where any user is sent: the mapping
    it rebuilds is not what [get_shard_for_user] reads. *)
Theorem get_shard_for_user_in_range
        (LoadBalancer : Type) (hash : Principal -> Z)
        (LoadDistribution : Type)
        (load : ShardingManager LoadBalancer -> LoadDistribution)
        (remap : ShardingManager LoadBalancer -> LoadDistribution -> gmap Principal Z)
        (self : ShardingManager LoadBalancer) (principal : Principal) :
  (0 < shard_count LoadBalancer self ->
   exists shard, get_shard_for_user LoadBalancer hash self principal = Some shard /\
                 0 <= shard < shard_count LoadBalancer self) /\
  (shard_count LoadBalancer self = 0 ->
   get_shard_for_user LoadBalancer hash self principal = None) /\
  get_shard_for_user LoadBalancer hash
    (rebalance_shards LoadBalancer LoadDistribution load remap self) principal
  = get_shard_for_user LoadBalancer hash self principal.
Proof.
  unfold get_shard_for_user, rebalance_shards, checked_rem. simpl.
  split; [| split].
  - intros Hpos. destruct (Z.eqb_spec (shard_count LoadBalancer self) 0); [lia |].
    eexists. split; [reflexivity |]. apply Z.mod_pos_bound. exact Hpos.
  - intros ->. reflexivity.
  - reflexivity.
Qed.

Lemma get_shard_for_user_in_range_witness :
  0 < 4 /\
  exists shard,
    get_shard_for_user unit (fun _ => 10) (mkShardingManager unit 4 ∅ tt) "alice"
    = Some shard /\ 0 <= shard < 4.
Proof.
  split; [lia |].
  apply (proj1 (get_shard_for_user_in_range unit (fun _ => 10) unit (fun _ => tt)
                  (fun _ _ => ∅) (mkShardingManager unit 4 ∅ tt) "alice")); simpl; lia.
Defined.

(** ** The listing of liquidatable positions *)

(** The list that the walk over some entries produces. *)
Lemma filter_map_liquidatable_run (scale : Z) (entries : list (Z * CDP)) (w : World) :
  exists l,
    filter_map_liquidatable scale entries w = (Ok l, w) /\
    (forall info, In info l <->
       exists k cdp, In (k, cdp) entries /\ eligible_in scale w cdp = true /\
                     info = liquidation_info_of w k cdp) /\
    (StronglySorted (fun a b : Z * CDP => a.1 < b.1) entries ->
     StronglySorted (fun a b => LiquidationInfo.cdp_id a < LiquidationInfo.cdp_id b) l).
Proof.
  induction entries as [| [k cdp] rest IH].
  - exists []. split; [reflexivity |]. split.
    + intros info. split; [intros [] | intros (? & ? & [] & _)].
    + intros _. constructor.
  - destruct IH as (l & Hrun & Hmem & Hsort).
    simpl. unfold bind, is_liquidatable, calculate_liquidation_reward, gets, ret.
    fold (eligible_in scale w cdp). fold (liquidation_info_of w k cdp).
    destruct (eligible_in scale w cdp) eqn:Hel.
    + rewrite Hrun. eexists. split; [reflexivity |]. split.
      * intros info. simpl. rewrite Hmem. split.
        -- intros [<- | (k' & c' & Hin & He & ->)].
           ++ exists k, cdp. split; [left; reflexivity | split; [exact Hel | reflexivity]].
           ++ exists k', c'. split; [right; exact Hin | split; [exact He | reflexivity]].
        -- intros (k' & c' & [Heq | Hin] & He & ->).
           ++ inversion Heq; subst. left. reflexivity.
           ++ right. exists k', c'. repeat split; assumption.
      * intros Hs. inversion Hs as [| ? ? Hrest Hall]; subst.
        constructor; [apply Hsort; exact Hrest |].
        apply List.Forall_forall. intros info Hin.
        apply Hmem in Hin. destruct Hin as (k' & c' & Hin & _ & ->).
        rewrite List.Forall_forall in Hall. apply (Hall _ Hin).
    + rewrite Hrun. exists l. split; [reflexivity |]. split.
      * intros info. rewrite Hmem. split.
        -- intros (k' & c' & Hin & He & ->).
           exists k', c'. split; [right; exact Hin | split; [exact He | reflexivity]].
        -- intros (k' & c' & [Heq | Hin] & He & ->).
           ++ inversion Heq; subst. congruence.
           ++ exists k', c'. repeat split; assumption.
      * intros Hs. inversion Hs; subst. apply Hsort. assumption.
Qed.

(** The order of the keys, and what iterating the registry gives. *)
Lemma key_le_trans : Transitive key_le.
Proof. intros a b c. unfold key_le. lia. Qed.

Lemma key_le_total : Total key_le.
Proof. intros a b. unfold key_le. lia. Qed.

Lemma registry_iter_member (registry : gmap Z CDP) (k : Z) (cdp : CDP) :
  In (k, cdp) (registry_iter registry) <-> registry !! k = Some cdp.
Proof.
  unfold registry_iter. rewrite <- list_elem_of_In.
  rewrite merge_sort_Permutation. apply elem_of_map_to_list.
Qed.

Lemma registry_iter_sorted (registry : gmap Z CDP) :
  StronglySorted (fun a b : Z * CDP => a.1 < b.1) (registry_iter registry).
Proof.
  unfold registry_iter.
  pose proof key_le_trans as Htrans. pose proof key_le_total as Htotal.
  pose proof (StronglySorted_merge_sort key_le (map_to_list registry)) as Hs.
  assert (Hnd : NoDup (merge_sort key_le (map_to_list registry)).*1).
  { rewrite merge_sort_Permutation. apply NoDup_fst_map_to_list. }
  induction Hs as [| x l Hl IH Hall]; [constructor |].
  simpl in Hnd. apply NoDup_cons in Hnd. destruct Hnd as [Hx Hnd].
  constructor; [apply IH; exact Hnd |].
  apply List.Forall_forall. intros y Hy.
  rewrite List.Forall_forall in Hall. specialize (Hall y Hy). unfold key_le in Hall.
  assert (x.1 <> y.1).
  { intros Heq. apply Hx. rewrite Heq. apply list_elem_of_fmap. exists y.
    split; [reflexivity | apply list_elem_of_In; exact Hy]. }
  lia.
Qed.

(** X21. [get_liquidatable_cdps] writes nothing and always answers.  Its list
    holds exactly one entry for every position of the registry that passes the
    test of [is_liquidatable] at the cached price, whatever its status, and no
    other entry; the entries are in strictly increasing order of [cdp_id], so
    no position is listed twice; [total_count] is the length of the list; and
    the pagination parameters have no effect on any of this. *)
Theorem get_liquidatable_cdps_lists_the_eligible
        (scale : Z) (PaginationParams : Type) (params : PaginationParams) (w : World) :
  exists l,
    get_liquidatable_cdps scale PaginationParams params w
    = (Ok (mkLiquidationList l (Z.of_nat (length l))), w) /\
    (forall info, In info l <->
       exists k cdp, CDP_REGISTRY w !! k = Some cdp /\ eligible_in scale w cdp = true /\
                     info = liquidation_info_of w k cdp) /\
    StronglySorted (fun a b => LiquidationInfo.cdp_id a < LiquidationInfo.cdp_id b) l.
Proof.
  destruct (filter_map_liquidatable_run scale (registry_iter (CDP_REGISTRY w)) w)
    as (l & Hrun & Hmem & Hsort).
  exists l. split; [| split].
  - unfold get_liquidatable_cdps, bind, gets, ret. rewrite Hrun. reflexivity.
  - intros info. rewrite Hmem. split.
    + intros (k & cdp & Hin & He & ->). exists k, cdp.
      split; [apply registry_iter_member; exact Hin | split; [exact He | reflexivity]].
    + intros (k & cdp & Hget & He & ->). exists k, cdp.
      split; [apply registry_iter_member; exact Hget | split; [exact He | reflexivity]].
  - apply Hsort. apply registry_iter_sorted.
Qed.

(** The entries of a listing, for any way of obtaining it. *)
Lemma listed_positions (scale : Z) (PaginationParams : Type) (params : PaginationParams)
      (w : World) (l : LiquidationList) (info : LiquidationInfo.t) :
  fst (get_liquidatable_cdps scale PaginationParams params w) = Ok l ->
  (In info (cdps l) <->
   exists k cdp, CDP_REGISTRY w !! k = Some cdp /\ eligible_in scale w cdp = true /\
                 info = liquidation_info_of w k cdp).
Proof.
  destruct (filter_map_liquidatable_run scale (registry_iter (CDP_REGISTRY w)) w)
    as (l0 & Hrun & Hmem & _).
  unfold get_liquidatable_cdps, bind, gets, ret. rewrite Hrun. simpl.
  intros H. inversion H; subst. simpl. rewrite Hmem. split.
  - intros (k & cdp & Hin & He & ->). exists k, cdp.
    split; [apply registry_iter_member; exact Hin | split; [exact He | reflexivity]].
  - intros (k & cdp & Hget & He & ->). exists k, cdp.
    split; [apply registry_iter_member; exact Hget | split; [exact He | reflexivity]].
Qed.

(** X22. What the listing promises is what the liquidation gives: for an
    entry of [get_liquidatable_cdps], a call of [liquidate_cdp] on its
    [cdp_id] in the same state, by a caller whose balance covers the offer
    and with the burn and the transfer going through, succeeds, reports the
    entry's [potential_reward] as [liquidation_reward] and burns the entry's
    [minted_bollar]. *)
Theorem listed_reward_is_the_reward_paid
        (scale : Z) (PaginationParams : Type) (params : PaginationParams)
        (E : Env) (w : World) (l : LiquidationList) (info : LiquidationInfo.t)
        (bollar_amount balance : Z) :
  fst (get_liquidatable_cdps scale PaginationParams params w) = Ok l ->
  In info (cdps l) ->
  runes_balance_of E (caller E) = Ok balance ->
  bollar_amount <= balance ->
  (forall who cents, is_ok (runes_burn_bollar E who cents) = true) ->
  (forall deposit who sats,
     is_ok (transfer_btc_to_liquidator E deposit who sats) = true) ->
  exists r,
    fst (liquidate_cdp scale E (LiquidationInfo.cdp_id info) bollar_amount w) = Ok r /\
    liquidation_reward r = LiquidationInfo.potential_reward info /\
    bollar_burned r = LiquidationInfo.minted_bollar info.
Proof.
  intros Hlist Hin Hbal Hle Hburn Htransfer.
  apply (listed_positions scale PaginationParams params w l info Hlist) in Hin.
  destruct Hin as (k & cdp & Hget & Hel & ->). simpl.
  unfold eligible_in in Hel.
  unfold_endpoint. rewrite Hget. simpl. rewrite Hel. simpl. rewrite Hbal. simpl.
  destruct (Z.ltb_spec balance bollar_amount); [lia |].
  specialize (Hburn (caller E) (minted_bollar cdp)).
  destruct (runes_burn_bollar E (caller E) (minted_bollar cdp)); [| discriminate].
  simpl.
  match goal with |- context [transfer_btc_to_liquidator E ?d ?p ?a] =>
    specialize (Htransfer d p a);
    destruct (transfer_btc_to_liquidator E d p a) end; [| discriminate].
  simpl. eexists. split; [reflexivity |]. split; reflexivity.
Qed.

Lemma listed_reward_is_the_reward_paid_witness :
  (fst (get_liquidatable_cdps 1 unit tt underwater_world)
   = Ok (mkLiquidationList [liquidation_info_of underwater_world 1 underwater_position] 1) /\
   In (liquidation_info_of underwater_world 1 underwater_position)
      [liquidation_info_of underwater_world 1 underwater_position] /\
   runes_balance_of bob_calls (caller bob_calls) = Ok 8000000000000 /\
   8000000000000 <= 8000000000000) /\
  exists r,
    fst (liquidate_cdp 1 bob_calls 1 8000000000000 underwater_world) = Ok r /\
    liquidation_reward r = 5000000 /\
    bollar_burned r = 8000000000000.
Proof.
  split.
  - split; [vm_compute; reflexivity |].
    split; [left; reflexivity |]. split; [reflexivity | lia].
  - apply (listed_reward_is_the_reward_paid 1 unit tt bob_calls underwater_world
             (mkLiquidationList
                [liquidation_info_of underwater_world 1 underwater_position] 1)
             (liquidation_info_of underwater_world 1 underwater_position)
             8000000000000 8000000000000).
    + vm_compute; reflexivity.
    + left; reflexivity.
    + reflexivity.
    + lia.
    + intros; reflexivity.
    + intros; reflexivity.
Defined.
